(** * convert_images.py: batch conversion of PNG/JPEG files to WEBP

    A shallow embedding of [src/convert_images.py] and the properties of
    its three functions [resolve_root], [convert_images_to_webp] and
    [main].

    The program is glue over [pathlib] and an image codec.  What the
    program itself computes (pattern matching of file names, the sort, the
    destination name, the choice of colour mode, the order of the file
    operations, the report) is written out; the codec and the parts of the
    operating system the program only calls are fields of [Env]. *)

From Stdlib Require Import ZArith Ascii String.
From stdpp Require Import base decidable option list sorting strings pretty gmap.

Local Open Scope string_scope.
Local Open Scope list_scope.

#[local] Set Warnings "-clear-no-such-hyp".

(** ** Strings *)

Module Str.

(** [s.rfind(c)]: index of the last occurrence of [c] in [s]. *)
Fixpoint rfind (c : ascii) (s : string) : option nat :=
  match s with
  | EmptyString => None
  | String a s' =>
      match rfind c s' with
      | Some i => Some (S i)
      | None => if decide (a = c) then Some 0 else None
      end
  end.

(** [s[:i]] and [s[i:]]. *)
Fixpoint take (i : nat) (s : string) : string :=
  match i, s with
  | S i', String a s' => String a (take i' s')
  | _, _ => EmptyString
  end.

Fixpoint drop (i : nat) (s : string) : string :=
  match i, s with
  | S i', String _ s' => drop i' s'
  | _, _ => s
  end.

(** [s.split(sep)] for a one-character separator. *)
Fixpoint split (sep : ascii) (s : string) : list string :=
  match s with
  | EmptyString => [EmptyString]
  | String a s' =>
      if decide (a = sep) then EmptyString :: split sep s'
      else match split sep s' with
           | [] => [String a EmptyString]
           | w :: ws => String a w :: ws
           end
  end.

(** The last character of a string. *)
Fixpoint last_char (s : string) : option ascii :=
  match s with
  | EmptyString => None
  | String a EmptyString => Some a
  | String _ s' => last_char s'
  end.

(** A string is truthy in Python when it is not empty. *)
Definition truthy (s : string) : bool :=
  match s with EmptyString => false | _ => true end.

(** [s[:1] == "~"] *)
Definition tilde (s : string) : bool :=
  match s with String "~" _ => true | _ => false end.

End Str.

(** ** fnmatch

    [Path.glob] compiles its pattern with [fnmatch.translate] and matches
    the whole entry name, case-sensitively on POSIX.  Only the wildcards
    [*] and [?] are modelled; the three patterns of the program contain a
    single [*]. *)

Module Fnmatch.

Fixpoint fnmatch (pat name : string) : bool :=
  match pat with
  | EmptyString => match name with EmptyString => true | _ => false end
  | String c pat' =>
      if decide (c = "*"%char) then
        (fix star (n : string) : bool :=
           fnmatch pat' n
           || match n with
              | EmptyString => false
              | String _ n' => star n'
              end) name
      else if decide (c = "?"%char) then
        match name with
        | EmptyString => false
        | String _ n' => fnmatch pat' n'
        end
      else
        match name with
        | EmptyString => false
        | String d n' => bool_decide (c = d) && fnmatch pat' n'
        end
  end.

(** A pattern (fragment) without wildcards. *)
Fixpoint literal (pat : string) : bool :=
  match pat with
  | EmptyString => true
  | String c pat' =>
      negb (bool_decide (c = "*"%char)) && negb (bool_decide (c = "?"%char))
      && literal pat'
  end.

End Fnmatch.

(** ** pathlib: the lexical part

    A path is its [parts] tuple: [Path("/srv/img/a.png").parts] is
    [("/", "srv", "img", "a.png")]; a relative path has no anchor. *)

Abbreviation Path := (list string).

Module PurePath.

Definition is_anchor (s : string) : bool :=
  bool_decide (s = "/") || bool_decide (s = "//").

(** [PurePosixPath(s)]: split at [/], drop empty and [.] components;
    exactly two leading slashes are kept as the anchor [//]. *)
Definition anchor_of (s : string) : list string :=
  match s with
  | String "/" (String "/" (String "/" _)) => ["/"]
  | String "/" (String "/" _) => ["//"]
  | String "/" _ => ["/"]
  | _ => []
  end.

Definition of_string (s : string) : Path :=
  anchor_of s
  ++ filter (λ c, c ≠ EmptyString ∧ c ≠ ".") (Str.split "/" s).

(** [p.name]: the last component, empty for an anchor or the empty path. *)
Definition name (p : Path) : string :=
  match last p with
  | Some s => if is_anchor s then EmptyString else s
  | None => EmptyString
  end.

(** [p.parent]. *)
Definition parent (p : Path) : Path :=
  if decide (name p = EmptyString) then p else removelast p.

(** [p / s] for a single component [s]. *)
Definition joinpath (p : Path) (s : string) : Path := p ++ [s].

(** [p.suffix]: from the last dot of the name, unless that dot is the
    first or the last character (pathlib of CPython up to 3.12). *)
Definition suffix_of_name (n : string) : string :=
  match Str.rfind "." n with
  | Some i =>
      if bool_decide (0 < i) && bool_decide (i < String.length n - 1)
      then Str.drop i n else EmptyString
  | None => EmptyString
  end.

Definition stem_of_name (n : string) : string :=
  match Str.rfind "." n with
  | Some i =>
      if bool_decide (0 < i) && bool_decide (i < String.length n - 1)
      then Str.take i n else n
  | None => n
  end.

Definition suffix (p : Path) : string := suffix_of_name (name p).
Definition stem (p : Path) : string := stem_of_name (name p).

(** [p.with_suffix(suf)] for a suffix that starts with a dot; [None]
    stands for the [ValueError] raised on a path with an empty name. *)
Definition with_suffix_pure (p : Path) (suf : string) : option Path :=
  if decide (name p = EmptyString) then None
  else Some (removelast p ++ [stem p +:+ suf]).

(** Paths compare as their parts compare: component by component, each
    component by code points, a proper prefix first. *)
Fixpoint leb (p q : Path) : bool :=
  match p, q with
  | [], _ => true
  | _ :: _, [] => false
  | a :: p', b :: q' =>
      if decide (a = b) then leb p' q' else bool_decide (String.le a b)
  end.

Definition le (p q : Path) : Prop := leb p q = true.

Global Instance le_dec : RelDecision le.
Proof. intros p q. unfold le. apply _. Defined.

End PurePath.

(** ** The world outside the program *)

(** An image as [PIL] hands it to the program: its mode and its raster. *)
Record image := Image { mode : string; pixels : list Z }.

(** A directory entry: a subdirectory or a regular file with its bytes. *)
Inductive node :=
| Dir
| File (data : list Byte.byte).

Inductive fsop := OpRead | OpWrite | OpUnlink.

(** The exceptions the calls of the program can raise. *)
Inductive exn :=
| FileNotFoundError (p : Path)
| IsADirectoryError (p : Path)
| PermissionError (p : Path)
| UnidentifiedImageError (p : Path)
| ValueError (p : Path)
| ConvertError (p : Path)
| EncodeError (p : Path) (quality : Z)
| RuntimeError (msg : string).

(** A call returns a value or raises. *)
Inductive result (A : Type) :=
| Ok (a : A)
| Raise (e : exn).
Arguments Ok {A} a.
Arguments Raise {A} e.

(** What the program calls and does not define: the home directories as
    [os.path.expanduser] finds them for one component [~] or [~user] (the
    component comes back unchanged when there is none), [Path.resolve],
    which follows the links of the file system and raises on a loop, the
    location of the program, the refusals of the operating system, and the
    codec. *)
Record Env := {
  posix_expanduser : string → string;
  os_resolve : Path → result Path;
  program_file : string;
  os_denied : fsop → Path → bool;
  pil_decode : list Byte.byte → option image;
  pil_recolor : string → string → list Z → option (list Z);
  pil_encode : string → image → Z → Z → option (list Byte.byte)
}.

(** The file operations the run performed, oldest first. *)
Inductive event :=
| EvOpen (p : Path)
| EvSave (p : Path) (fmt : string) (out_mode : string) (quality method : Z)
| EvUnlink (p : Path).

Record world := World {
  files : gmap Path node;
  events : list event;
  stdout : list string
}.

(** ** Computations: state and exceptions *)

Definition M (A : Type) : Type := world → world * result A.

Global Instance M_ret : MRet M := λ A a w, (w, Ok a).

Global Instance M_bind : MBind M := λ A B f m w,
  match m w with
  | (w', Ok a) => f a w'
  | (w', Raise e) => (w', Raise e)
  end.

Definition raise {A} (e : exn) : M A := λ w, (w, Raise e).

(** A call that does not touch the world. *)
Definition lift {A} (r : result A) : M A := λ w, (w, r).

Definition emit (ev : event) : M unit := λ w,
  (World (files w) (events w ++ [ev]) (stdout w), Ok ()).

Definition print (line : string) : M unit := λ w,
  (World (files w) (events w) (stdout w ++ [line]), Ok ()).

(** ** pathlib and PIL calls on the world *)

(** [k] names an entry directly inside [root]. *)
Definition child_name (root k : Path) : option string :=
  match drop (length root) k with
  | [n] => if decide (take (length root) k = root) then Some n else None
  | _ => None
  end.

(** The entry names of [root], in the order the map enumerates them;
    nothing when [root] is not a directory. *)
Definition scandir (fs : gmap Path node) (root : Path) : list string :=
  match fs !! root with
  | Some Dir => omap (child_name root) (fst <$> map_to_list fs)
  | _ => []
  end.

(** [root.glob(pat)] over a given enumeration of the entry names. *)
Definition glob_in (listing : list string) (root : Path) (pat : string)
  : list Path :=
  PurePath.joinpath root <$> filter (λ n, Fnmatch.fnmatch pat n = true) listing.

(** [sorted(list(root.glob("*.png")) + list(root.glob("*.jpg")) +
    list(root.glob("*.jpeg")))] *)
Definition source_files_in (listing : list string) (root : Path) : list Path :=
  merge_sort PurePath.le
    (glob_in listing root "*.png" ++ glob_in listing root "*.jpg"
     ++ glob_in listing root "*.jpeg").

Definition source_files (fs : gmap Path node) (root : Path) : list Path :=
  source_files_in (scandir fs root) root.

Definition scan (root : Path) : M (list Path) := λ w,
  (w, Ok (source_files (files w) root)).

Definition with_suffix (p : Path) (suf : string) : M Path :=
  match PurePath.with_suffix_pure p suf with
  | Some q => mret q
  | None => raise (ValueError p)
  end.

(** The result of [parse_args], with the defaults of lines 9 to 13. *)
Record Namespace := {
  args_root : option string;
  args_quality : Z;
  args_delete_original : bool
}.

Definition default_args : Namespace :=
  {| args_root := None; args_quality := 82; args_delete_original := false |}.

Section calls.
Context (env : Env).

(** Reading the bytes of a regular file. *)
Definition read_bytes (p : Path) : M (list Byte.byte) := λ w,
  match files w !! p with
  | None => (w, Raise (FileNotFoundError p))
  | Some Dir => (w, Raise (IsADirectoryError p))
  | Some (File data) =>
      if os_denied env OpRead p then (w, Raise (PermissionError p))
      else (w, Ok data)
  end.

(** [Image.open(p)], with the decoding that [convert] would trigger. *)
Definition Image_open (p : Path) : M image :=
  data ← read_bytes p;
  match pil_decode env data with
  | Some img => emit (EvOpen p);; mret img
  | None => raise (UnidentifiedImageError p)
  end.

(** [img.convert(m)]: an image of mode [m]. *)
Definition convert (p : Path) (m : string) (img : image) : M image :=
  match pil_recolor env (mode img) m (pixels img) with
  | Some px => mret (Image m px)
  | None => raise (ConvertError p)
  end.

(** [os.path.exists(p)] *)
Definition path_exists (p : Path) : M bool := λ w,
  (w, Ok (bool_decide (is_Some (files w !! p)))).

(** [open(p, "w+b")]: the regular file [p] is created, or emptied when it
    is there.  The directory of [p] is the one that was scanned, so it
    exists. *)
Definition open_wb (p : Path) : M unit := λ w,
  match files w !! p with
  | Some Dir => (w, Raise (IsADirectoryError p))
  | _ =>
      if os_denied env OpWrite p then (w, Raise (PermissionError p))
      else (World (<[p := File []]> (files w)) (events w) (stdout w), Ok ())
  end.

(** [fp.write(data)] and [fp.close()] on the file opened at [p]. *)
Definition write_bytes (p : Path) (data : list Byte.byte) : M unit := λ w,
  (World (<[p := File data]> (files w)) (events w) (stdout w), Ok ()).

(** [os.remove(p)] under [except PermissionError: pass]. *)
Definition remove_quietly (p : Path) : M unit := λ w,
  if os_denied env OpUnlink p then (w, Ok ())
  else (World (delete p (files w)) (events w) (stdout w), Ok ()).

(** [out.save(p, format=fmt, quality=quality, method=method)], in the order
    of [Image.save]: the destination is opened for writing before the
    encoder is asked, so a save that the encoder refuses has emptied a
    destination that was there; a destination that the call created is
    removed again before the error is raised. *)
Definition save (out : image) (p : Path) (fmt : string) (quality method : Z)
  : M unit :=
  existed ← path_exists p;
  open_wb p;;
  match pil_encode env fmt out quality method with
  | Some data =>
      write_bytes p data;;
      emit (EvSave p fmt (mode out) quality method)
  | None =>
      (if existed : bool then mret () else remove_quietly p);;
      raise (EncodeError p quality)
  end.

(** [p.unlink()] *)
Definition unlink (p : Path) : M unit := λ w,
  match files w !! p with
  | None => (w, Raise (FileNotFoundError p))
  | Some Dir => (w, Raise (IsADirectoryError p))
  | Some (File _) =>
      if os_denied env OpUnlink p then (w, Raise (PermissionError p))
      else (World (delete p (files w)) (events w ++ [EvUnlink p]) (stdout w),
            Ok ())
  end.

(** ** The program *)

(** [p.expanduser()], after [pathlib]: a path without anchor whose first
    component begins with [~] has that component replaced by the home
    directory, and raises when none is found for it. *)
Definition expanduser (p : Path) : result Path :=
  match p with
  | part :: rest =>
      if negb (PurePath.is_anchor part) && Str.tilde part then
        let homedir := posix_expanduser env part in
        if Str.tilde homedir
        then Raise (RuntimeError "Could not determine home directory.")
        else Ok (PurePath.of_string homedir ++ rest)
      else Ok p
  | [] => Ok p
  end.

(** [(Path(__file__).resolve().parent / "images").resolve()] *)
Definition default_root : result Path :=
  match os_resolve env (PurePath.of_string (program_file env)) with
  | Ok file => os_resolve env (PurePath.joinpath (PurePath.parent file) "images")
  | Raise e => Raise e
  end.

Definition resolve_root (root_arg : option string) : result Path :=
  match root_arg with
  | Some s =>
      if Str.truthy s
      then match expanduser (PurePath.of_string s) with
           | Ok p => os_resolve env p
           | Raise e => Raise e
           end
      else default_root
  | None => default_root
  end.

(** Lines 31 to 34: the mode the image is converted to. *)
Definition target_mode (img : image) : string :=
  if bool_decide (mode img ∈ ["RGBA"; "P"]) then "RGBA" else "RGB".

(** One turn of the loop, lines 29 to 38 without the [append]. *)
Definition convert_one (quality : Z) (delete_original : bool)
    (source_path : Path) : M (string * string) :=
  webp_path ← with_suffix source_path ".webp";
  img ← Image_open source_path;
  out ← (if bool_decide (mode img ∈ ["RGBA"; "P"])
         then convert source_path "RGBA" img
         else convert source_path "RGB" img);
  save out webp_path "WEBP" quality 6;;
  (if delete_original then unlink source_path else mret ());;
  mret (PurePath.name source_path, PurePath.name webp_path).

Fixpoint for_each (quality : Z) (delete_original : bool)
    (source_files : list Path) (converted : list (string * string))
  : M (list (string * string)) :=
  match source_files with
  | [] => mret converted
  | source_path :: rest =>
      entry ← convert_one quality delete_original source_path;
      for_each quality delete_original rest (converted ++ [entry])
  end.

Definition convert_images_to_webp (root : Path) (quality : Z)
    (delete_original : bool) : M (list (string * string)) :=
  source_files ← scan root;
  for_each quality delete_original source_files [].

Fixpoint print_pairs (converted : list (string * string)) : M unit :=
  match converted with
  | [] => mret ()
  | (src, dst) :: rest => print (src +:+ " -> " +:+ dst);; print_pairs rest
  end.

Definition main (args : Namespace) : M unit :=
  root ← lift (resolve_root (args_root args));
  converted ← convert_images_to_webp root (args_quality args)
                (args_delete_original args);
  print_pairs converted;;
  print ("converted: " +:+ pretty (length converted)).

End calls.

(** ** A small environment to run the program in

    A codec whose files are a tag byte for the mode followed by raster
    bytes, an encoder that accepts qualities 0 to 100 and methods 0 to 6,
    one user with the home directory [/home/u], no symbolic links, the
    working directory [/tmp], no refusals. *)
Module Toy.

Definition mode_of_tag (b : Byte.byte) : option string :=
  match b with
  | Byte.x01 => Some "L"
  | Byte.x02 => Some "LA"
  | Byte.x03 => Some "RGB"
  | Byte.x04 => Some "RGBA"
  | Byte.x05 => Some "P"
  | _ => None
  end.

Definition decode (data : list Byte.byte) : option image :=
  match data with
  | tag :: px =>
      m ← mode_of_tag tag;
      Some (Image m (Z.of_N ∘ Byte.to_N <$> px))
  | [] => None
  end.

Definition encode (fmt : string) (img : image) (quality method : Z)
  : option (list Byte.byte) :=
  if bool_decide (fmt = "WEBP")
     && bool_decide (0 ≤ quality ≤ 100)%Z && bool_decide (0 ≤ method ≤ 6)%Z
  then Some (if bool_decide (mode img = "RGBA")
             then [Byte.x57; Byte.x04] else [Byte.x57; Byte.x03])
  else None.

Definition env : Env := {|
  posix_expanduser part :=
    if bool_decide (part = "~") then "/home/u" else part;
  os_resolve p :=
    match p with "/" :: _ => Ok p | _ => Ok (["/"; "tmp"] ++ p) end;
  program_file := "/app/convert_images.py";
  os_denied _ _ := false;
  pil_decode := decode;
  pil_recolor _ _ px := Some px;
  pil_encode := encode
|}.

(** The same, with an encoder that refuses a raster of more than four
    values, as a real encoder refuses an image beyond its size limit. *)
Definition encode_small (fmt : string) (img : image) (quality method : Z)
  : option (list Byte.byte) :=
  if bool_decide (length (pixels img) ≤ 4)%nat
  then encode fmt img quality method else None.

Definition env_small : Env := {|
  posix_expanduser := posix_expanduser env;
  os_resolve := os_resolve env;
  program_file := program_file env;
  os_denied := os_denied env;
  pil_decode := pil_decode env;
  pil_recolor := pil_recolor env;
  pil_encode := encode_small
|}.

Definition root : Path := ["/"; "app"; "images"].

Definition png : node := File [Byte.x04; Byte.x10].
Definition jpg : node := File [Byte.x03; Byte.x20].

Definition dir3 : gmap Path node :=
  list_to_map [ (root, Dir);
                (root ++ ["c.jpeg"], jpg);
                (root ++ ["a.png"], png);
                (root ++ ["b.jpg"], jpg);
                (root ++ ["d.gif"], jpg) ].

Definition dir_abc : gmap Path node :=
  list_to_map [ (root, Dir);
                (root ++ ["c.jpeg"], jpg);
                (root ++ ["a.png"], png);
                (root ++ ["b.jpg"], jpg) ].

(** One grayscale image with alpha, named as a PNG. *)
Definition dir_la : gmap Path node :=
  list_to_map [ (root, Dir); (root ++ ["g.png"], File [Byte.x02; Byte.x07]) ].

(** A directory whose second file, in sorted order, is not an image. *)
Definition dir_bad : gmap Path node :=
  list_to_map [ (root, Dir);
                (root ++ ["a.png"], png);
                (root ++ ["b.jpg"], File []);
                (root ++ ["c.jpeg"], jpg) ].

(** A directory without entries. *)
Definition dir_empty : gmap Path node := {[ root := Dir ]}.

(** Two files with the stem [a]. *)
Definition dir_collide : gmap Path node :=
  list_to_map [ (root, Dir); (root ++ ["a.png"], png); (root ++ ["a.jpg"], jpg) ].

(** Two files with the stem [a] and the extensions [.jpeg] and [.jpg]. *)
Definition dir_collide_jpeg : gmap Path node :=
  list_to_map [ (root, Dir); (root ++ ["a.jpg"], jpg); (root ++ ["a.jpeg"], png) ].

(** Two files with the stem [a], the second with a raster of six values. *)
Definition dir_collide_big : gmap Path node :=
  list_to_map
    [ (root, Dir);
      (root ++ ["a.jpg"], jpg);
      (root ++ ["a.png"],
       File [Byte.x04; Byte.x10; Byte.x11; Byte.x12; Byte.x13; Byte.x14;
             Byte.x15]) ].

(** Three images, and a destination left by an earlier run. *)
Definition dir_stale : gmap Path node :=
  list_to_map [ (root, Dir);
                (root ++ ["a.png"], png);
                (root ++ ["a.webp"], File [Byte.x57; Byte.x04]);
                (root ++ ["b.jpg"], jpg) ].

Definition start (fs : gmap Path node) : world := World fs [] [].

End Toy.

(** ** Vocabulary of the statements *)

(** [n] ends with [suf]. *)
Definition ends_with (suf n : string) : Prop := ∃ pre, n = pre +:+ suf.

(** The names the three patterns select. *)
Definition is_source_name (n : string) : Prop :=
  ends_with ".png" n ∨ ends_with ".jpg" n ∨ ends_with ".jpeg" n.


(** The three lists put together, before the sort. *)
Definition globbed (listing : list string) (root : Path) : list Path :=
  glob_in listing root "*.png" ++ glob_in listing root "*.jpg"
  ++ glob_in listing root "*.jpeg".

(** The destination of a source path: same directory, stem, [.webp]. *)
Definition dest (p : Path) : Path :=
  removelast p ++ [PurePath.stem p +:+ ".webp"].

(** The pair the loop records for a source path. *)
Definition entry_of (p : Path) : string * string :=
  (PurePath.name p, PurePath.stem p +:+ ".webp").

(** The bands of the modes the statements mention, after [PIL]'s table. *)
Definition getbands (m : string) : list string :=
  if bool_decide (m = "RGBA") then ["R"; "G"; "B"; "A"]
  else if bool_decide (m = "RGB") then ["R"; "G"; "B"]
  else if bool_decide (m = "LA") then ["L"; "A"]
  else if bool_decide (m = "L") then ["L"]
  else if bool_decide (m = "P") then ["P"]
  else [].

(** One turn of the loop that completes: what it needs and what it leaves. *)
Inductive step_ok (env : Env) (quality : Z) (delete_original : bool)
    (p : Path) (w w' : world) : string * string → Prop :=
| StepOk data img px out :
    PurePath.name p ≠ EmptyString →
    files w !! p = Some (File data) →
    os_denied env OpRead p = false →
    pil_decode env data = Some img →
    pil_recolor env (mode img) (target_mode img) (pixels img) = Some px →
    pil_encode env "WEBP" (Image (target_mode img) px) quality 6 = Some out →
    files w !! dest p ≠ Some Dir →
    os_denied env OpWrite (dest p) = false →
    (delete_original = true → os_denied env OpUnlink p = false) →
    files w' = (if delete_original
                then delete p (<[dest p := File out]> (files w))
                else <[dest p := File out]> (files w)) →
    events w' = events w
                ++ [EvOpen p; EvSave (dest p) "WEBP" (target_mode img) quality 6]
                ++ (if delete_original then [EvUnlink p] else []) →
    stdout w' = stdout w →
    step_ok env quality delete_original p w w' (entry_of p).

(** What a save that the encoder refuses leaves of the directory: the
    destination [d] is empty when it was there, and when it was not it is
    gone again, unless the system refused to remove it. *)
Definition after_refused_save (env : Env) (fs : gmap Path node) (d : Path)
  : gmap Path node :=
  match fs !! d with
  | Some _ => <[d := File []]> fs
  | None => if os_denied env OpUnlink d then <[d := File []]> fs else fs
  end.

(** One turn of the loop that raises: nothing was touched, or the
    destination was opened and the encoder refused, or the destination was
    written and the [unlink] raised. *)
Inductive step_fail (env : Env) (quality : Z) (delete_original : bool)
    (p : Path) (w w' : world) : Prop :=
| FailBeforeWrite evs :
    evs = [] ∨ evs = [EvOpen p] →
    files w' = files w →
    events w' = events w ++ evs →
    stdout w' = stdout w →
    step_fail env quality delete_original p w w'
| FailEncode :
    files w !! dest p ≠ Some Dir →
    files w' = after_refused_save env (files w) (dest p) →
    events w' = events w ++ [EvOpen p] →
    stdout w' = stdout w →
    step_fail env quality delete_original p w w'
| FailUnlink img px out :
    delete_original = true →
    pil_encode env "WEBP" (Image (target_mode img) px) quality 6 = Some out →
    files w' = <[dest p := File out]> (files w) →
    events w' = events w
                ++ [EvOpen p; EvSave (dest p) "WEBP" (target_mode img) quality 6] →
    stdout w' = stdout w →
    step_fail env quality delete_original p w w'.

(** Completed turns, one after the other. *)
Inductive steps (env : Env) (quality : Z) (delete_original : bool)
  : list Path → world → world → Prop :=
| steps_nil w :
    steps env quality delete_original [] w w
| steps_cons p l w w1 w' :
    step_ok env quality delete_original p w w1 (entry_of p) →
    steps env quality delete_original l w1 w' →
    steps env quality delete_original (p :: l) w w'.

(** In a trace, every deletion of a file comes right after the save that
    followed the opening of that same file: what was saved last before the
    deletion is the conversion of the file that is deleted. *)
Definition deletes_follow_own_save (quality : Z) (t : list event) : Prop :=
  ∀ t1 p t2, t = t1 ++ EvUnlink p :: t2 →
    ∃ t0 m, t1 = t0 ++ [EvOpen p; EvSave (dest p) "WEBP" m quality 6].

(** What a turn needs from the directory and the environment to complete. *)
Definition ready (env : Env) (quality : Z) (delete_original : bool)
    (fs : gmap Path node) (p : Path) : Prop :=
  ∃ data img px out,
    fs !! p = Some (File data)
    ∧ os_denied env OpRead p = false
    ∧ pil_decode env data = Some img
    ∧ pil_recolor env (mode img) (target_mode img) (pixels img) = Some px
    ∧ pil_encode env "WEBP" (Image (target_mode img) px) quality 6 = Some out
    ∧ fs !! dest p ≠ Some Dir
    ∧ os_denied env OpWrite (dest p) = false
    ∧ (delete_original = true → os_denied env OpUnlink p = false).

(** The bytes the turn for a file with bytes [data] writes. *)
Definition webp_of (env : Env) (quality : Z) (data : list Byte.byte)
  : option (list Byte.byte) :=
  img ← pil_decode env data;
  px ← pil_recolor env (mode img) (target_mode img) (pixels img);
  pil_encode env "WEBP" (Image (target_mode img) px) quality 6.

(** A path the scan can produce: an entry with a source name. *)
Definition is_source_path (p : Path) : Prop :=
  ∃ root n, p = root ++ [n] ∧ is_source_name n.

(** What the trace of a run looks like: every save is a WEBP save with the
    quality of the run and method 6, to mode RGBA or RGB; every deletion
    comes right after the opening and the save of the file it deletes; no
    deletion unless asked. *)
Definition well_traced (quality : Z) (delete_original : bool)
    (t : list event) : Prop :=
  deletes_follow_own_save quality t
  ∧ (∀ p fmt m q meth, EvSave p fmt m q meth ∈ t →
       fmt = "WEBP" ∧ q = quality ∧ meth = 6%Z ∧ (m = "RGBA" ∨ m = "RGB"))
  ∧ (delete_original = false → ∀ p, EvUnlink p ∉ t).

(** The paths a trace opened, in order. *)
Definition opened (t : list event) : list Path :=
  omap (λ ev, match ev with EvOpen p => Some p | _ => None end) t.

(** The line [main] prints for a pair. *)
Definition report_line (entry : string * string) : string :=
  entry.1 +:+ " -> " +:+ entry.2.

(** What a turn that raises did to its destination before the error. *)
Inductive mark :=
| Untouched
| Refused
| Written (out : list Byte.byte).

(** The directory a turn for [p] that raises leaves, from the directory
    [fs] it found. *)
Definition left_by (env : Env) (p : Path) (fs : gmap Path node) (m : mark)
  : gmap Path node :=
  match m with
  | Untouched => fs
  | Refused => after_refused_save env fs (dest p)
  | Written out => <[dest p := File out]> fs
  end.

(** Why a turn raises, read off the calls of lines 29 to 37 in their
    order: the error, and what the turn did to the destination before the
    error.  The destination is opened after the conversion and before the
    encoder is asked. *)
Inductive turn_raises (env : Env) (quality : Z) (delete_original : bool)
    (p : Path) (fs : gmap Path node) : exn → mark → Prop :=
| RaiseSourceMissing :
    fs !! p = None →
    turn_raises env quality delete_original p fs (FileNotFoundError p) Untouched
| RaiseSourceIsDir :
    fs !! p = Some Dir →
    turn_raises env quality delete_original p fs (IsADirectoryError p) Untouched
| RaiseReadRefused data :
    fs !! p = Some (File data) → os_denied env OpRead p = true →
    turn_raises env quality delete_original p fs (PermissionError p) Untouched
| RaiseNotAnImage data :
    fs !! p = Some (File data) → os_denied env OpRead p = false →
    pil_decode env data = None →
    turn_raises env quality delete_original p fs
      (UnidentifiedImageError p) Untouched
| RaiseConvert data img :
    fs !! p = Some (File data) → os_denied env OpRead p = false →
    pil_decode env data = Some img →
    pil_recolor env (mode img) (target_mode img) (pixels img) = None →
    turn_raises env quality delete_original p fs (ConvertError p) Untouched
| RaiseDestIsDir data img px :
    fs !! p = Some (File data) → os_denied env OpRead p = false →
    pil_decode env data = Some img →
    pil_recolor env (mode img) (target_mode img) (pixels img) = Some px →
    fs !! dest p = Some Dir →
    turn_raises env quality delete_original p fs
      (IsADirectoryError (dest p)) Untouched
| RaiseWriteRefused data img px :
    fs !! p = Some (File data) → os_denied env OpRead p = false →
    pil_decode env data = Some img →
    pil_recolor env (mode img) (target_mode img) (pixels img) = Some px →
    fs !! dest p ≠ Some Dir →
    os_denied env OpWrite (dest p) = true →
    turn_raises env quality delete_original p fs
      (PermissionError (dest p)) Untouched
| RaiseEncode data img px :
    fs !! p = Some (File data) → os_denied env OpRead p = false →
    pil_decode env data = Some img →
    pil_recolor env (mode img) (target_mode img) (pixels img) = Some px →
    fs !! dest p ≠ Some Dir →
    os_denied env OpWrite (dest p) = false →
    pil_encode env "WEBP" (Image (target_mode img) px) quality 6 = None →
    turn_raises env quality delete_original p fs
      (EncodeError (dest p) quality) Refused
| RaiseUnlinkRefused data out :
    delete_original = true →
    fs !! p = Some (File data) → os_denied env OpRead p = false →
    webp_of env quality data = Some out →
    fs !! dest p ≠ Some Dir →
    os_denied env OpWrite (dest p) = false →
    os_denied env OpUnlink p = true →
    turn_raises env quality delete_original p fs (PermissionError p)
      (Written out).

(** The paths a trace saved to, and the paths it deleted, in order. *)
Definition saved (t : list event) : list Path :=
  omap (λ ev, match ev with EvSave p _ _ _ _ => Some p | _ => None end) t.

Definition unlinked (t : list event) : list Path :=
  omap (λ ev, match ev with EvUnlink p => Some p | _ => None end) t.

(** * Properties *)

(** ** The order on paths *)

Module PathOrder.
Import PurePath.

Lemma leb_refl p : leb p p = true.
Proof. induction p as [|a p IH]; simpl; [done|]. by rewrite decide_True. Qed.

Lemma leb_total p q : leb p q = true ∨ leb q p = true.
Proof.
  revert q. induction p as [|a p IH]; intros [|b q]; simpl; auto.
  destruct (decide (a = b)) as [->|Hab].
  - rewrite decide_True by done. apply IH.
  - rewrite decide_False by congruence.
    rewrite !bool_decide_eq_true. apply (total String.le).
Qed.

Lemma leb_antisym p q : leb p q = true → leb q p = true → p = q.
Proof.
  revert q. induction p as [|a p IH]; intros [|b q]; simpl; try done.
  destruct (decide (a = b)) as [->|Hab].
  - rewrite decide_True by done. intros. f_equal. by apply IH.
  - rewrite decide_False by congruence.
    rewrite !bool_decide_eq_true. intros H1 H2.
    destruct Hab. by apply (anti_symm String.le).
Qed.

Lemma leb_trans p q r : leb p q = true → leb q r = true → leb p r = true.
Proof.
  revert q r. induction p as [|a p IH]; intros [|b q] [|c r]; simpl; try done.
  destruct (decide (a = b)) as [->|Hab]; destruct (decide (b = c)) as [->|Hbc].
  - apply IH.
  - done.
  - rewrite decide_False by done. done.
  - rewrite !bool_decide_eq_true. intros H1 H2.
    destruct (decide (a = c)) as [->|Hac].
    + destruct Hab. by apply (anti_symm String.le).
    + apply bool_decide_eq_true. by trans b.
Qed.

Global Instance le_total : Total le.
Proof. intros p q. apply leb_total. Qed.
Global Instance le_trans : Transitive le.
Proof. intros p q r. apply leb_trans. Qed.
Global Instance le_antisym : AntiSymm (=) le.
Proof. intros p q. apply leb_antisym. Qed.
Global Instance le_refl : Reflexive le.
Proof. intros p. apply leb_refl. Qed.

(** Entries of one directory are ordered as their names are. *)
Lemma le_siblings root a b :
  le (root ++ [a]) (root ++ [b]) ↔ String.le a b.
Proof.
  unfold le. induction root as [|c root IH]; simpl.
  - destruct (decide (a = b)) as [->|]; [|by rewrite bool_decide_eq_true].
    split; [done|]. intros _. done.
  - by rewrite decide_True.
Qed.

End PathOrder.

(** ** File names: patterns, suffixes, stems *)

Module Names.
Import Fnmatch.

Lemma str_app_nil_l s : EmptyString +:+ s = s.
Proof. done. Qed.
Lemma str_app_cons a s t : String a s +:+ t = String a (s +:+ t).
Proof. done. Qed.
Lemma str_app_assoc s t u : (s +:+ t) +:+ u = s +:+ (t +:+ u).
Proof. induction s as [|a s IH]; [done|]. by rewrite !str_app_cons, IH. Qed.
Lemma str_app_length s t : String.length (s +:+ t) = String.length s + String.length t.
Proof. induction s as [|a s IH]; [done|]. rewrite str_app_cons. simpl. by rewrite IH. Qed.

Lemma fnmatch_literal lit n :
  literal lit = true → fnmatch lit n = true ↔ n = lit.
Proof.
  revert n. induction lit as [|c lit IH]; intros n Hlit.
  - destruct n; simpl; naive_solver.
  - simpl in Hlit. apply andb_true_iff in Hlit as [Hc Hlit].
    apply andb_true_iff in Hc as [Hstar Hq].
    apply negb_true_iff, bool_decide_eq_false in Hstar.
    apply negb_true_iff, bool_decide_eq_false in Hq.
    simpl. rewrite !decide_False by done.
    destruct n as [|d n]; [naive_solver|].
    rewrite andb_true_iff, bool_decide_eq_true, IH by done. naive_solver.
Qed.

Lemma fnmatch_star pat n :
  fnmatch (String "*" pat) n
  = fnmatch pat n
    || match n with
       | EmptyString => false
       | String _ n' => fnmatch (String "*" pat) n'
       end.
Proof. by destruct n. Qed.

(** A pattern [*lit] matches exactly the names that end with [lit]. *)
Lemma fnmatch_star_literal lit n :
  literal lit = true →
  fnmatch (String "*" lit) n = true ↔ ends_with lit n.
Proof.
  intros Hlit. unfold ends_with. induction n as [|a n IH].
  - rewrite fnmatch_star, orb_false_r, fnmatch_literal by done. split.
    + intros ->. by exists EmptyString.
    + intros [[|b pre] Hpre]; [done|]. by rewrite str_app_cons in Hpre.
  - rewrite fnmatch_star, orb_true_iff, fnmatch_literal, IH by done. split.
    + intros [->|[pre ->]]; [by exists EmptyString|]. by exists (String a pre).
    + intros [[|b pre] Hpre]; [by left|].
      rewrite str_app_cons in Hpre. simplify_eq. right. by eexists.
Qed.

Lemma last_char_app pre suf :
  suf ≠ EmptyString → Str.last_char (pre +:+ suf) = Str.last_char suf.
Proof.
  intros Hsuf. induction pre as [|a pre IH]; [done|].
  rewrite str_app_cons. simpl. rewrite IH.
  destruct (pre +:+ suf) eqn:E; [|done].
  destruct pre; [by destruct suf|by rewrite str_app_cons in E].
Qed.

Lemma ends_with_last_char suf n :
  suf ≠ EmptyString → ends_with suf n → Str.last_char n = Str.last_char suf.
Proof. intros ? [pre ->]. by apply last_char_app. Qed.

Lemma ends_with_length suf n :
  ends_with suf n → (String.length suf ≤ String.length n)%nat.
Proof. intros [pre ->]. rewrite str_app_length. lia. Qed.

(** [rfind] in a name that ends with an extension. *)
Lemma rfind_app c pre suf i :
  Str.rfind c suf = Some i →
  Str.rfind c (pre +:+ suf) = Some (String.length pre + i).
Proof.
  intros Hsuf. induction pre as [|a pre IH]; [done|].
  rewrite str_app_cons. simpl. by rewrite IH.
Qed.

Lemma take_app pre suf : Str.take (String.length pre) (pre +:+ suf) = pre.
Proof.
  induction pre as [|a pre IH]; [by destruct suf|].
  rewrite str_app_cons. simpl. by rewrite IH.
Qed.

(** The stem of [pre.ext]: [pre], unless [pre] is empty. *)
Lemma stem_of_name_ext pre ext :
  pre ≠ EmptyString → ext ≠ EmptyString → Str.rfind "." ext = None →
  PurePath.stem_of_name (pre +:+ String "." ext) = pre.
Proof.
  intros Hpre Hext Hdot. unfold PurePath.stem_of_name.
  rewrite (rfind_app _ _ _ 0) by (simpl; by rewrite Hdot).
  rewrite Nat.add_0_r, str_app_length. simpl.
  destruct pre as [|a pre]; [done|]. destruct ext as [|b ext]; [done|].
  simpl String.length.
  rewrite !bool_decide_eq_true_2 by lia. simpl andb. cbv iota.
  change (S (String.length pre)) with (String.length (String a pre)).
  apply take_app.
Qed.

Lemma stem_of_name_dotfile ext :
  Str.rfind "." ext = None →
  PurePath.stem_of_name (String "." ext) = String "." ext.
Proof. intros Hdot. unfold PurePath.stem_of_name. simpl. by rewrite Hdot. Qed.

End Names.



(** ** Discovery: [scandir], [glob], [sorted] *)

Module Discovery.
Import PurePath Names.

Lemma app_inj_r pre1 pre2 s1 s2 :
  String.length s1 = String.length s2 →
  pre1 +:+ s1 = pre2 +:+ s2 → pre1 = pre2 ∧ s1 = s2.
Proof.
  intros Hlen. revert pre2.
  induction pre1 as [|a pre1 IH]; intros [|b pre2] Heq; [done|..].
  - rewrite str_app_nil_l in Heq. apply (f_equal String.length) in Heq.
    rewrite str_app_length in Heq. simpl in Heq. lia.
  - rewrite str_app_nil_l in Heq. apply (f_equal String.length) in Heq.
    rewrite str_app_length in Heq. simpl in Heq. lia.
  - rewrite !str_app_cons in Heq. simplify_eq.
    destruct (IH pre2) as [-> ->]; done.
Qed.

Lemma png_not_jpg n : ends_with ".png" n → ends_with ".jpg" n → False.
Proof.
  intros [p1 ->] [p2 H]. by apply app_inj_r in H as [_ ?].
Qed.
Lemma png_not_jpeg n : ends_with ".png" n → ends_with ".jpeg" n → False.
Proof.
  intros [p1 ->] [p2 H].
  change (p2 +:+ ".jpeg") with (p2 +:+ ("." +:+ "jpeg")) in H.
  rewrite <-str_app_assoc in H. by apply app_inj_r in H as [_ ?].
Qed.
Lemma jpg_not_jpeg n : ends_with ".jpg" n → ends_with ".jpeg" n → False.
Proof.
  intros [p1 ->] [p2 H].
  change (p2 +:+ ".jpeg") with (p2 +:+ ("." +:+ "jpeg")) in H.
  rewrite <-str_app_assoc in H. by apply app_inj_r in H as [_ ?].
Qed.

Lemma fnmatch_png n : Fnmatch.fnmatch "*.png" n = true ↔ ends_with ".png" n.
Proof. by apply fnmatch_star_literal. Qed.
Lemma fnmatch_jpg n : Fnmatch.fnmatch "*.jpg" n = true ↔ ends_with ".jpg" n.
Proof. by apply fnmatch_star_literal. Qed.
Lemma fnmatch_jpeg n : Fnmatch.fnmatch "*.jpeg" n = true ↔ ends_with ".jpeg" n.
Proof. by apply fnmatch_star_literal. Qed.


(** A source name is a real name: not empty, not an anchor. *)
Lemma source_name_last_char n : is_source_name n → Str.last_char n = Some "g"%char.
Proof.
  intros [H|[H|H]]; apply ends_with_last_char in H; by try discriminate.
Qed.

Lemma name_child (root : Path) (n : string) :
  Str.last_char n ≠ None → Str.last_char n ≠ Some "/"%char → name (root ++ [n]) = n.
Proof.
  intros H1 H2. unfold name. rewrite last_snoc. unfold is_anchor.
  rewrite !bool_decide_eq_false_2; [done|..]; by intros ->.
Qed.

Lemma child_name_Some root k n : child_name root k = Some n ↔ k = root ++ [n].
Proof.
  unfold child_name. split.
  - destruct (drop (length root) k) as [|m [|??]] eqn:Hd; try done.
    case_decide as Ht; [|done]. intros [= ->].
    by rewrite <-(take_drop (length root) k), Ht, Hd.
  - intros ->. rewrite drop_app_length, take_app_length. by rewrite decide_True.
Qed.

Lemma elem_of_scandir (fs : gmap Path node) root n :
  n ∈ scandir fs root ↔ fs !! root = Some Dir ∧ is_Some (fs !! (root ++ [n])).
Proof.
  unfold scandir. destruct (fs !! root) as [[|]|] eqn:Hroot.
  - rewrite list_elem_of_omap. split.
    + intros (k & Hk & Hn). apply child_name_Some in Hn as ->.
      apply list_elem_of_fmap in Hk as ([k x] & -> & Hk).
      apply elem_of_map_to_list in Hk. simpl in *. eauto.
    + intros [_ [x Hx]]. exists (root ++ [n]). split; [|by apply child_name_Some].
      apply list_elem_of_fmap. exists (root ++ [n], x). split; [done|].
      by apply elem_of_map_to_list.
  - split; [by intros ?%elem_of_nil|naive_solver].
  - split; [by intros ?%elem_of_nil|naive_solver].
Qed.

Lemma NoDup_omap_inj {A B} (f : A → option B) (l : list A) :
  (∀ x y z, f x = Some z → f y = Some z → x = y) →
  NoDup l → NoDup (omap f l).
Proof.
  intros Hinj. induction 1 as [|x l Hx Hl IH]; simpl; [constructor|].
  destruct (f x) as [z|] eqn:Hfx; [|done]. constructor; [|done].
  intros (y & Hy & Hfy)%list_elem_of_omap.
  by rewrite (Hinj _ _ _ Hfx Hfy) in Hx.
Qed.

Lemma NoDup_scandir (fs : gmap Path node) root : NoDup (scandir fs root).
Proof.
  unfold scandir. destruct (fs !! root) as [[|]|]; try constructor.
  apply NoDup_omap_inj; [|apply NoDup_fst_map_to_list].
  intros x y z ->%child_name_Some ->%child_name_Some. done.
Qed.

Global Instance joinpath_inj root : Inj (=) (=) (joinpath root).
Proof. intros a b H. unfold joinpath in H. by simplify_list_eq. Qed.

Lemma elem_of_glob_in listing root pat p :
  p ∈ glob_in listing root pat ↔
  ∃ n, p = root ++ [n] ∧ n ∈ listing ∧ Fnmatch.fnmatch pat n = true.
Proof.
  unfold glob_in. rewrite list_elem_of_fmap.
  setoid_rewrite list_elem_of_filter. naive_solver.
Qed.

Lemma NoDup_glob_in listing root pat :
  NoDup listing → NoDup (glob_in listing root pat).
Proof. intros. by apply (NoDup_fmap_2 _), NoDup_filter. Qed.

Lemma source_files_in_Permutation listing root :
  source_files_in listing root ≡ₚ globbed listing root.
Proof. apply merge_sort_Permutation. Qed.

Lemma elem_of_globbed listing root p :
  p ∈ globbed listing root ↔
  ∃ n, p = root ++ [n] ∧ n ∈ listing ∧ is_source_name n.
Proof.
  unfold globbed, is_source_name.
  rewrite !elem_of_app, !elem_of_glob_in.
  setoid_rewrite fnmatch_png. setoid_rewrite fnmatch_jpg.
  setoid_rewrite fnmatch_jpeg. naive_solver.
Qed.

Lemma elem_of_source_files_in listing root p :
  p ∈ source_files_in listing root ↔
  ∃ n, p = root ++ [n] ∧ n ∈ listing ∧ is_source_name n.
Proof. by rewrite source_files_in_Permutation, elem_of_globbed. Qed.

Lemma NoDup_globbed listing root : NoDup listing → NoDup (globbed listing root).
Proof.
  intros Hl. unfold globbed. rewrite !NoDup_app.
  repeat split; try by apply NoDup_glob_in.
  - intros p (n & -> & _ & Hn)%elem_of_glob_in.
    rewrite elem_of_app, !elem_of_glob_in.
    intros [(m & Hm & _ & Hm')|(m & Hm & _ & Hm')]; simplify_list_eq.
    + eapply png_not_jpg; [by apply fnmatch_png|by apply fnmatch_jpg].
    + eapply png_not_jpeg; [by apply fnmatch_png|by apply fnmatch_jpeg].
  - intros p (n & -> & _ & Hn)%elem_of_glob_in.
    rewrite elem_of_glob_in. intros (m & Hm & _ & Hm'). simplify_list_eq.
    eapply jpg_not_jpeg; [by apply fnmatch_jpg|by apply fnmatch_jpeg].
Qed.

Lemma NoDup_source_files_in listing root :
  NoDup listing → NoDup (source_files_in listing root).
Proof.
  intros. rewrite source_files_in_Permutation. by apply NoDup_globbed.
Qed.

Lemma sorted_source_files_in listing root :
  StronglySorted le (source_files_in listing root).
Proof. apply (StronglySorted_merge_sort _). Qed.

(** The sorted list does not depend on the order of enumeration. *)
Lemma source_files_in_proper l1 l2 root :
  l1 ≡ₚ l2 → source_files_in l1 root = source_files_in l2 root.
Proof.
  intros Hl. apply (StronglySorted_unique le);
    [apply sorted_source_files_in..|].
  rewrite !source_files_in_Permutation. unfold globbed, glob_in.
  by rewrite Hl.
Qed.




End Discovery.

(** ** One turn of the loop *)

Module Turn.
Import PurePath Names Discovery.

Lemma dest_child root n :
  is_source_name n → dest (root ++ [n]) = root ++ [stem_of_name n +:+ ".webp"].
Proof.
  intros Hn. unfold dest, stem. rewrite removelast_last, name_child; [done|..];
    rewrite (source_name_last_char _ Hn); done.
Qed.

Lemma name_source root n : is_source_name n → name (root ++ [n]) = n.
Proof.
  intros Hn. apply name_child; rewrite (source_name_last_char _ Hn); done.
Qed.

Lemma name_source_nonempty root n :
  is_source_name n → name (root ++ [n]) ≠ EmptyString.
Proof.
  intros Hn. rewrite name_source by done. intros ->.
  by apply source_name_last_char in Hn.
Qed.

(** A destination is never a source. *)
Lemma dest_not_source p root n : is_source_name n → dest p ≠ root ++ [n].
Proof.
  intros Hn Heq. unfold dest in Heq. apply app_inj_tail in Heq as [_ Heq].
  apply source_name_last_char in Hn.
  rewrite <-Heq, last_char_app in Hn; done.
Qed.

Lemma name_dest p : name (dest p) = stem p +:+ ".webp".
Proof.
  unfold dest. apply name_child; rewrite last_char_app; done.
Qed.

Lemma with_suffix_webp p :
  name p ≠ EmptyString → PurePath.with_suffix_pure p ".webp" = Some (dest p).
Proof. intros. unfold PurePath.with_suffix_pure. by rewrite decide_False. Qed.

Lemma target_mode_cases img : target_mode img = "RGBA" ∨ target_mode img = "RGB".
Proof. unfold target_mode. case_bool_decide; auto. Qed.

(** *** Running the calls *)

Lemma bind_inv {A B} (m : M A) (f : A → M B) w w' r :
  (m ≫= f) w = (w', r) →
  (∃ w1 a, m w = (w1, Ok a) ∧ f a w1 = (w', r))
  ∨ (∃ e, m w = (w', Raise e) ∧ r = Raise e).
Proof.
  unfold mbind, M_bind. destruct (m w) as [w1 [a|e]] eqn:Hm.
  - intros Hf. left. eauto.
  - intros [= <- <-]. right. eauto.
Qed.

Lemma bind_Ok {A B} (m : M A) (f : A → M B) w w1 a :
  m w = (w1, Ok a) → (m ≫= f) w = f a w1.
Proof. intros Hm. unfold mbind, M_bind. by rewrite Hm. Qed.

Lemma bind_Raise {A B} (m : M A) (f : A → M B) w w1 e :
  m w = (w1, Raise e) → (m ≫= f) w = (w1, Raise e).
Proof. intros Hm. unfold mbind, M_bind. by rewrite Hm. Qed.

Section calls.
Context (env : Env).

Lemma with_suffix_inv p w w' r :
  with_suffix p ".webp" w = (w', r) →
  w' = w ∧ (name p ≠ EmptyString ∧ r = Ok (dest p) ∨ ∃ e, r = Raise e).
Proof.
  unfold with_suffix, PurePath.with_suffix_pure. case_decide.
  - intros [= <- <-]. eauto.
  - intros [= <- <-]. eauto.
Qed.

Lemma Image_open_inv p w w' r :
  Image_open env p w = (w', r) →
  match r with
  | Ok img =>
      ∃ data, files w !! p = Some (File data)
        ∧ os_denied env OpRead p = false
        ∧ pil_decode env data = Some img
        ∧ w' = World (files w) (events w ++ [EvOpen p]) (stdout w)
  | Raise _ => w' = w
  end.
Proof.
  unfold Image_open. intros [(w1 & data & Hr & Hk)|(e & Hr & ->)]%bind_inv.
  - unfold read_bytes in Hr.
    destruct (files w !! p) as [[|data']|] eqn:Hp; simplify_eq.
    destruct (os_denied env OpRead p) eqn:Hd; simplify_eq.
    destruct (pil_decode env data) as [img|] eqn:Hdec.
    + cbv in Hk. simplify_eq. eauto.
    + cbv in Hk. by simplify_eq.
  - unfold read_bytes in Hr.
    destruct (files w !! p) as [[|data']|]; simplify_eq; try done.
    destruct (os_denied env OpRead p); by simplify_eq.
Qed.

Lemma convert_inv p m img w w' r :
  convert env p m img w = (w', r) →
  w' = w ∧
  match r with
  | Ok out =>
      ∃ px, pil_recolor env (mode img) m (pixels img) = Some px
        ∧ out = Image m px
  | Raise _ => True
  end.
Proof.
  unfold convert. destruct (pil_recolor env _ _ _) as [px|].
  - intros [= <- <-]. eauto.
  - by intros [= <- <-].
Qed.

Lemma open_wb_inv p w w' r :
  open_wb env p w = (w', r) →
  match r with
  | Ok _ =>
      files w !! p ≠ Some Dir ∧ os_denied env OpWrite p = false
      ∧ w' = World (<[p := File []]> (files w)) (events w) (stdout w)
  | Raise e =>
      w' = w
      ∧ (files w !! p = Some Dir ∧ e = IsADirectoryError p
         ∨ files w !! p ≠ Some Dir ∧ os_denied env OpWrite p = true
           ∧ e = PermissionError p)
  end.
Proof.
  unfold open_wb. destruct (files w !! p) as [[|?]|] eqn:Hp.
  - intros [= <- <-]. split; [done|]. by left.
  - destruct (os_denied env OpWrite p) eqn:Hd; intros [= <- <-]; [|done].
    split; [done|]. by right.
  - destruct (os_denied env OpWrite p) eqn:Hd; intros [= <- <-]; [|done].
    split; [done|]. by right.
Qed.

(** A save either writes the encoding, or raises before it touches the
    destination, or raises after it has opened it. *)
Lemma save_inv out p q meth w w' r :
  save env out p "WEBP" q meth w = (w', r) →
  match r with
  | Ok _ =>
      ∃ data, pil_encode env "WEBP" out q meth = Some data
        ∧ files w !! p ≠ Some Dir
        ∧ os_denied env OpWrite p = false
        ∧ w' = World (<[p := File data]> (files w))
                 (events w ++ [EvSave p "WEBP" (mode out) q meth]) (stdout w)
  | Raise e =>
      (w' = w
       ∧ (files w !! p = Some Dir ∧ e = IsADirectoryError p
          ∨ files w !! p ≠ Some Dir ∧ os_denied env OpWrite p = true
            ∧ e = PermissionError p))
      ∨ (pil_encode env "WEBP" out q meth = None
         ∧ files w !! p ≠ Some Dir
         ∧ os_denied env OpWrite p = false
         ∧ e = EncodeError p q
         ∧ w' = World (after_refused_save env (files w) p) (events w) (stdout w))
  end.
Proof.
  unfold save.
  intros [(w1 & ex & He & Hk)|(e & He & _)]%bind_inv;
    unfold path_exists in He; [|done].
  injection He as <- <-.
  apply bind_inv in Hk as [(w1 & [] & Ho & Hk)|(e & Ho & ->)];
    apply open_wb_inv in Ho; [|by left].
  destruct Ho as (Hnd & Hden & ->).
  destruct (pil_encode env "WEBP" out q meth) as [data|] eqn:Henc.
  - cbv [write_bytes emit mbind M_bind] in Hk. simpl in Hk.
    injection Hk as <- <-. exists data. by rewrite insert_insert_eq.
  - assert (r = Raise (EncodeError p q)
            ∧ w' = World (after_refused_save env (files w) p)
                     (events w) (stdout w)) as [-> ->]; [|by right].
    unfold after_refused_save.
    destruct (files w !! p) as [[|d]|] eqn:Hp; [done|..].
    + rewrite bool_decide_eq_true_2 in Hk by eauto.
      cbv [mbind M_bind mret M_ret raise] in Hk. by injection Hk as <- <-.
    + rewrite bool_decide_eq_false_2 in Hk by (by intros [? ?]).
      cbv [mbind M_bind raise remove_quietly] in Hk.
      destruct (os_denied env OpUnlink p) eqn:Hu; simpl in Hk;
        injection Hk as <- <-; [done|].
      by rewrite delete_insert_id.
Qed.

Lemma unlink_inv p w w' r :
  unlink env p w = (w', r) →
  match r with
  | Ok _ =>
      (∃ data, files w !! p = Some (File data))
      ∧ os_denied env OpUnlink p = false
      ∧ w' = World (delete p (files w)) (events w ++ [EvUnlink p]) (stdout w)
  | Raise _ => w' = w
  end.
Proof.
  unfold unlink. destruct (files w !! p) as [[|data]|]; try by intros [= <- <-].
  destruct (os_denied env OpUnlink p); intros [= <- <-]; eauto.
Qed.

(** What one turn does, whichever way it ends. *)
Lemma convert_one_inv q del p w w' r :
  convert_one env q del p w = (w', r) →
  match r with
  | Ok e => e = entry_of p ∧ step_ok env q del p w w' e
  | Raise _ => step_fail env q del p w w'
  end.
Proof.
  unfold convert_one.
  intros [(w1 & d & Hs & Hk)|(e & Hs & ->)]%bind_inv;
    apply with_suffix_inv in Hs as [-> Hs]; cycle 1.
  { apply (FailBeforeWrite _ _ _ _ _ _ []); auto. by rewrite app_nil_r. }
  destruct Hs as [[Hname [= ->]]|[? ?]]; [|done].
  apply bind_inv in Hk as [(w1 & img & Ho & Hk)|(e & Ho & ->)];
    apply Image_open_inv in Ho; cycle 1.
  { subst w'. apply (FailBeforeWrite _ _ _ _ _ _ []); auto. by rewrite app_nil_r. }
  destruct Ho as (data & Hp & Hread & Hdec & ->).
  apply bind_inv in Hk as [(w1 & out & Hc & Hk)|(e & Hc & ->)].
  all: assert (∃ wx, wx = World (files w) (events w ++ [EvOpen p]) (stdout w))
         as [wx Hwx] by eauto; rewrite <-Hwx in *.
  all: assert (convert env p (target_mode img) img wx
               = (if bool_decide (mode img ∈ ["RGBA"; "P"])
                  then convert env p "RGBA" img else convert env p "RGB" img) wx)
         as Hconv by (unfold target_mode; by case_bool_decide).
  all: rewrite <-Hconv in Hc; apply convert_inv in Hc as [-> Hc]; cycle 1.
  { subst wx. apply (FailBeforeWrite _ _ _ _ _ _ [EvOpen p]); auto. }
  destruct Hc as (px & Hpx & ->).
  apply bind_inv in Hk as [(w1 & [] & Hsv & Hk)|(e & Hsv & ->)];
    apply save_inv in Hsv; cycle 1.
  { destruct Hsv as [[-> _]|(_ & Hnd & _ & _ & ->)]; subst wx.
    - apply (FailBeforeWrite _ _ _ _ _ _ [EvOpen p]); auto.
    - by apply FailEncode. }
  destruct Hsv as (odata & Henc & Hnd & Hwr & ->). subst wx. simpl in *.
  destruct del.
  - apply bind_inv in Hk as [(w1 & [] & Hu & Hk)|(e & Hu & ->)];
      apply unlink_inv in Hu; cycle 1.
    { subst w'. eapply FailUnlink; simpl; eauto.
      by rewrite <-app_assoc. }
    destruct Hu as (_ & Hdel & ->). cbv [mret M_ret] in Hk. simplify_eq.
    rewrite name_dest. split; [done|].
    eapply StepOk; simpl; eauto. by rewrite <-!app_assoc.
  - cbv [mbind M_bind mret M_ret] in Hk. simplify_eq.
    rewrite name_dest. split; [done|].
    eapply StepOk; simpl; eauto; [done|]. by rewrite <-!app_assoc.
Qed.

Lemma Image_open_Ok p w data img :
  files w !! p = Some (File data) → os_denied env OpRead p = false →
  pil_decode env data = Some img →
  Image_open env p w
  = (World (files w) (events w ++ [EvOpen p]) (stdout w), Ok img).
Proof.
  intros Hp Hr Hdec. unfold Image_open.
  erewrite bind_Ok; [|unfold read_bytes; by rewrite Hp, Hr].
  by rewrite Hdec.
Qed.

Lemma convert_Ok p m img px w :
  pil_recolor env (mode img) m (pixels img) = Some px →
  convert env p m img w = (w, Ok (Image m px)).
Proof. intros Hpx. unfold convert. by rewrite Hpx. Qed.

Lemma convert_target p img px w :
  pil_recolor env (mode img) (target_mode img) (pixels img) = Some px →
  (if bool_decide (mode img ∈ ["RGBA"; "P"])
   then convert env p "RGBA" img else convert env p "RGB" img) w
  = (w, Ok (Image (target_mode img) px)).
Proof. unfold target_mode. case_bool_decide; apply convert_Ok. Qed.

Lemma save_Ok out p q meth data w :
  pil_encode env "WEBP" out q meth = Some data →
  files w !! p ≠ Some Dir → os_denied env OpWrite p = false →
  save env out p "WEBP" q meth w
  = (World (<[p := File data]> (files w))
       (events w ++ [EvSave p "WEBP" (mode out) q meth]) (stdout w), Ok ()).
Proof.
  intros Henc Hnd Hw. unfold save. rewrite Henc.
  erewrite bind_Ok; [|reflexivity].
  assert (open_wb env p w
          = (World (<[p := File []]> (files w)) (events w) (stdout w), Ok ()))
    as Hop.
  { unfold open_wb. rewrite Hw. by destruct (files w !! p) as [[|?]|]. }
  rewrite (bind_Ok _ _ _ _ _ Hop).
  cbv [write_bytes emit mbind M_bind]. simpl. by rewrite insert_insert_eq.
Qed.

Lemma save_refused out p q meth w :
  pil_encode env "WEBP" out q meth = None →
  files w !! p ≠ Some Dir → os_denied env OpWrite p = false →
  save env out p "WEBP" q meth w
  = (World (after_refused_save env (files w) p) (events w) (stdout w),
     Raise (EncodeError p q)).
Proof.
  intros Henc Hnd Hw.
  destruct (save env out p "WEBP" q meth w) as [w' r] eqn:Hsave.
  apply save_inv in Hsave. destruct r as [[]|e].
  - destruct Hsave as (data & Henc' & _). congruence.
  - destruct Hsave as [[_ [[? _]|(_ & ? & _)]]|(_ & _ & _ & -> & ->)];
      [done|congruence|done].
Qed.

Lemma unlink_Ok p data w :
  files w !! p = Some (File data) → os_denied env OpUnlink p = false →
  unlink env p w
  = (World (delete p (files w)) (events w ++ [EvUnlink p]) (stdout w), Ok ()).
Proof. intros Hp Hu. unfold unlink. by rewrite Hp, Hu. Qed.

Lemma convert_one_ready q del p w :
  name p ≠ EmptyString → p ≠ dest p → ready env q del (files w) p →
  ∃ w', convert_one env q del p w = (w', Ok (entry_of p)).
Proof.
  intros Hname Hne (data & img & px & out & Hp & Hr & Hdec & Hpx & Henc
                    & Hnd & Hw & Hu).
  assert (∃ w' e, convert_one env q del p w = (w', Ok e)) as (w' & e & Hrun).
  { unfold convert_one. destruct del; do 2 eexists.
    all: erewrite bind_Ok;
      [|unfold with_suffix; rewrite with_suffix_webp by done; reflexivity].
    all: erewrite bind_Ok; [|eapply Image_open_Ok; eauto].
    all: erewrite bind_Ok; [|by apply convert_target].
    all: erewrite bind_Ok; [|eapply save_Ok; eauto].
    - erewrite bind_Ok; [reflexivity|]. eapply unlink_Ok; [|by auto].
      simpl. rewrite lookup_insert_ne; eauto.
    - reflexivity. }
  pose proof (convert_one_inv _ _ _ _ _ _ Hrun) as [-> _]. eauto.
Qed.

End calls.

End Turn.

(** ** The loop *)

Module Loop.
Import PurePath Names Discovery Turn.

Section loop.
Context (env : Env) (q : Z) (del : bool).

Lemma for_each_inv l acc w w' r :
  for_each env q del l acc w = (w', r) →
  match r with
  | Ok res => res = acc ++ (entry_of <$> l) ∧ steps env q del l w w'
  | Raise e =>
      ∃ pre p rest w1, l = pre ++ p :: rest
        ∧ steps env q del pre w w1
        ∧ for_each env q del pre acc w = (w1, Ok (acc ++ (entry_of <$> pre)))
        ∧ convert_one env q del p w1 = (w', Raise e)
        ∧ step_fail env q del p w1 w'
  end.
Proof.
  revert acc w. induction l as [|p l IH]; intros acc w; simpl.
  - intros [= <- <-]. split; [by rewrite app_nil_r|by constructor].
  - intros [(w1 & e & Hs & Hk)|(e & Hs & ->)]%bind_inv.
    + pose proof Hs as Hrun.
      apply convert_one_inv in Hs as [-> Hs]. apply IH in Hk. destruct r.
      * destruct Hk as [-> Hk]. split; [by rewrite <-app_assoc|].
        econstructor; eauto.
      * destruct Hk as (pre & p' & rest & w2 & -> & Hd & Hpre & Hp' & Hf).
        exists (p :: pre), p', rest, w2. split; [done|].
        split; [econstructor; eauto|]. split; [|done].
        simpl. rewrite (bind_Ok _ _ _ _ _ Hrun), Hpre.
        by rewrite <-app_assoc.
    + pose proof Hs as Hrun. apply convert_one_inv in Hs.
      exists [], p, l, w. split; [done|]. split; [by constructor|].
      simpl. by rewrite app_nil_r.
Qed.

Lemma for_each_app l1 l2 acc w :
  for_each env q del (l1 ++ l2) acc w
  = (for_each env q del l1 acc ≫= for_each env q del l2) w.
Proof.
  revert acc w. induction l1 as [|p l1 IH]; intros acc w; [done|].
  simpl. unfold mbind, M_bind.
  destruct (convert_one env q del p w) as [w1 [e|err]]; [|done].
  by rewrite IH.
Qed.

Lemma steps_app l1 l2 w w' :
  steps env q del (l1 ++ l2) w w' ↔
  ∃ w1, steps env q del l1 w w1 ∧ steps env q del l2 w1 w'.
Proof.
  revert w. induction l1 as [|p l1 IH]; intros w; simpl.
  - split.
    + intros H. exists w. split; [by constructor|done].
    + intros (w1 & H1 & H2). by inversion H1; subst.
  - split.
    + inversion 1 as [|? ? ? w1 ? Hs Hl]; subst.
      apply IH in Hl as (w2 & H1 & H2). exists w2. split; [|done].
      econstructor; eauto.
    + intros (w1 & H1 & H2). inversion H1 as [|? ? ? w2 ? Hs Hl]; subst.
      econstructor; [done|]. apply IH. eauto.
Qed.

(** Frame: a run of completed turns leaves alone every path that is
    neither a destination nor (when deleting) a source of the run. *)
Lemma steps_frame l w w' k :
  steps env q del l w w' →
  k ∉ dest <$> l → (del = true → k ∉ l) →
  files w' !! k = files w !! k.
Proof.
  induction 1 as [w|p l w w1 w' Hs Hl IH]; intros Hk Hkl.
  - done.
  - rewrite fmap_cons, not_elem_of_cons in Hk. destruct Hk as [Hk1 Hk2].
    rewrite IH; [|done|intros ?; eapply not_elem_of_cons; eauto].
    inversion Hs as [? ? ? ? ? ? ? ? ? ? ? ? ? Hfiles]; subst.
    rewrite Hfiles. destruct del.
    + rewrite lookup_delete_ne, lookup_insert_ne; [done|congruence|].
      intros ->. apply (Hkl eq_refl). by left.
    + by rewrite lookup_insert_ne.
Qed.

Lemma dest_ne_source p g : is_source_path g → dest p ≠ g.
Proof. intros (root & n & -> & Hn). by apply dest_not_source. Qed.

Lemma source_not_in_dests (g : Path) (l : list Path) :
  is_source_path g → g ∉ dest <$> l.
Proof.
  intros Hg (p & Hp & _)%list_elem_of_fmap. by eapply dest_ne_source.
Qed.

Lemma dest_not_in_sources p (l : list Path) :
  Forall is_source_path l → dest p ∉ l.
Proof.
  rewrite Forall_forall. intros Hl Hin. by eapply dest_ne_source; eauto.
Qed.

(** With deletion, the sources of completed turns are gone. *)
Lemma steps_deleted l w w' p :
  steps env q del l w w' → del = true → Forall is_source_path l →
  p ∈ l → files w' !! p = None.
Proof.
  intros Hs Hdel. induction Hs as [|p0 l w w1 w' Hs Hl IH]; intros Hsrc Hp.
  - by apply elem_of_nil in Hp.
  - apply Forall_cons in Hsrc as [Hp0 Hsrc].
    destruct (decide (p ∈ l)) as [|Hnl]; [by apply IH|].
    apply elem_of_cons in Hp as [->|]; [|done].
    rewrite (steps_frame _ _ _ _ Hl); [|by apply source_not_in_dests|done].
    inversion Hs as [? ? ? ? ? ? ? ? ? ? ? ? ? Hfiles]; subst.
    rewrite Hfiles. by rewrite lookup_delete_eq.
Qed.

(** The destinations of completed turns hold written files. *)
Lemma steps_written l w w' p :
  steps env q del l w w' → Forall is_source_path l →
  p ∈ l → ∃ out, files w' !! dest p = Some (File out).
Proof.
  intros Hs. revert p.
  induction Hs as [|p0 l w w1 w' Hs Hl IH]; intros p Hsrc Hp.
  - by apply elem_of_nil in Hp.
  - apply Forall_cons in Hsrc as [Hp0 Hsrc].
    destruct (decide (dest p ∈ dest <$> l)) as [Hin|Hnin].
    { apply list_elem_of_fmap in Hin as (p' & Heq & Hp').
      rewrite Heq. by apply IH. }
    apply elem_of_cons in Hp as [->|Hp];
      [|destruct Hnin; by apply list_elem_of_fmap_2].
    rewrite (steps_frame _ _ _ _ Hl);
      [|done|intros _; by apply dest_not_in_sources].
    inversion Hs as [? ? ? out ? ? ? ? ? ? ? ? ? Hfiles]; subst.
    rewrite Hfiles. exists out. destruct del.
    + rewrite lookup_delete_ne, lookup_insert_eq; [done|].
      intros Heq. by eapply dest_ne_source.
    + by rewrite lookup_insert_eq.
Qed.

(** The last turn that writes a destination decides its content, and that
    content is made from the bytes the source had when the run began. *)
Lemma steps_last_writer l1 p l2 w w' :
  steps env q del (l1 ++ p :: l2) w w' →
  Forall is_source_path (l1 ++ p :: l2) → NoDup (l1 ++ p :: l2) →
  dest p ∉ dest <$> l2 →
  ∃ data out, files w !! p = Some (File data)
    ∧ webp_of env q data = Some out
    ∧ files w' !! dest p = Some (File out).
Proof.
  intros (w1 & H1 & H2)%steps_app Hsrc Hnd Hlast.
  inversion H2 as [|? ? ? w2 ? Hs Hl]; subst.
  apply Forall_app in Hsrc as [Hsrc1 [Hp Hsrc2]%Forall_cons].
  apply NoDup_app in Hnd as (_ & Hdisj & _).
  inversion Hs as [data img px out ? Hdata ? Hdec Hpx Henc ? ? ? Hfiles]; subst.
  exists data, out. split; [|split].
  - rewrite <-(steps_frame _ _ _ _ H1); [done|by apply source_not_in_dests|].
    intros _ Hin. eapply Hdisj; [done|]. by left.
  - unfold webp_of. rewrite Hdec. simpl. rewrite Hpx. simpl. done.
  - rewrite (steps_frame _ _ _ _ Hl);
      [|done|intros _; by apply dest_not_in_sources].
    rewrite Hfiles. destruct del.
    + rewrite lookup_delete_ne, lookup_insert_eq; [done|].
      intros Heq. by eapply dest_ne_source.
    + by rewrite lookup_insert_eq.
Qed.

Lemma steps_stdout l w w' : steps env q del l w w' → stdout w' = stdout w.
Proof.
  induction 1 as [|p l w w1 w' Hs Hl IH]; [done|].
  rewrite IH. by inversion Hs.
Qed.

(** *** Turns that are bound to complete *)

Lemma source_path_name p : is_source_path p → name p ≠ EmptyString.
Proof. intros (root & n & -> & Hn). by apply name_source_nonempty. Qed.

Lemma source_path_ne_dest p : is_source_path p → p ≠ dest p.
Proof. intros Hp Heq. by eapply (dest_ne_source p p). Qed.

Lemma ready_preserved p0 p w w1 :
  step_ok env q del p0 w w1 (entry_of p0) →
  is_source_path p → p ≠ p0 →
  ready env q del (files w) p → ready env q del (files w1) p.
Proof.
  intros Hs Hp Hne (data & img & px & out & Hf & Hr & Hdec & Hpx & Henc
                    & Hnd & Hw & Hu).
  exists data, img, px, out. repeat split; try done.
  - rewrite <-Hf. apply (steps_frame [p0] w w1).
    + econstructor; [done|constructor].
    + simpl. rewrite list_elem_of_singleton. intros ->.
      by eapply (dest_ne_source p0 (dest p0)).
    + intros _. by rewrite list_elem_of_singleton.
  - inversion Hs as [? ? ? out0 ? ? ? ? ? ? ? ? ? Hfiles]; subst.
    rewrite Hfiles. destruct (decide (dest p = dest p0)) as [Heq|Hned].
    + rewrite Heq. destruct del.
      * destruct (decide (p0 = dest p0)) as [<-|].
        -- by rewrite lookup_delete_eq.
        -- by rewrite lookup_delete_ne, lookup_insert_eq.
      * by rewrite lookup_insert_eq.
    + destruct del.
      * destruct (decide (p0 = dest p)) as [->|].
        -- by rewrite lookup_delete_eq.
        -- by rewrite lookup_delete_ne, lookup_insert_ne.
      * by rewrite lookup_insert_ne.
Qed.

Lemma for_each_ready l acc w :
  Forall is_source_path l → NoDup l →
  (∀ p, p ∈ l → ready env q del (files w) p) →
  ∃ w', for_each env q del l acc w = (w', Ok (acc ++ (entry_of <$> l))).
Proof.
  revert acc w. induction l as [|p l IH]; intros acc w Hsrc Hnd Hready.
  - exists w. simpl. by rewrite app_nil_r.
  - apply Forall_cons in Hsrc as [Hp Hsrc].
    apply NoDup_cons in Hnd as [Hpl Hnd].
    destruct (convert_one_ready env q del p w) as [w1 Hrun].
    { by apply source_path_name. }
    { by apply source_path_ne_dest. }
    { apply Hready. by left. }
    pose proof (convert_one_inv _ _ _ _ _ _ _ Hrun) as [_ Hs].
    destruct (IH (acc ++ [entry_of p]) w1 Hsrc Hnd) as [w' Hrest].
    { intros p' Hp'. eapply ready_preserved; [done|..].
      - rewrite Forall_forall in Hsrc. by apply Hsrc.
      - by intros ->.
      - apply Hready. by right. }
    exists w'. simpl. rewrite (bind_Ok _ _ _ _ _ Hrun), Hrest.
    by rewrite <-app_assoc.
Qed.

(** *** Traces *)

Lemma well_traced_nil : well_traced q del [].
Proof.
  split; [|split].
  - intros t1 p t2 H. by destruct t1.
  - intros ????? H. by apply elem_of_nil in H.
  - intros _ p H. by apply elem_of_nil in H.
Qed.

Lemma own_save_app ta tb :
  deletes_follow_own_save q ta → deletes_follow_own_save q tb →
  deletes_follow_own_save q (ta ++ tb).
Proof.
  intros Ha Hb t1 p t2 Heq.
  apply List.app_eq_app in Heq as [t [[-> Ht]|[-> Ht]]].
  - destruct t as [|ev t]; simplify_list_eq.
    + destruct (Hb [] p t2 eq_refl) as (t0 & m & H). by destruct t0.
    + by apply (Ha t1 p t).
  - destruct (Hb t p t2 Ht) as (t0 & m & ->).
    exists (ta ++ t0), m. by rewrite app_assoc.
Qed.

Lemma well_traced_app ta tb :
  well_traced q del ta → well_traced q del tb → well_traced q del (ta ++ tb).
Proof.
  intros (Ha1 & Ha2 & Ha3) (Hb1 & Hb2 & Hb3). split; [|split].
  - by apply own_save_app.
  - intros p fmt m q' meth [H|H]%elem_of_app; eauto.
  - intros Hdel p [H|H]%elem_of_app; [by eapply Ha3|by eapply Hb3].
Qed.

Lemma well_traced_turn p m :
  m = "RGBA" ∨ m = "RGB" →
  well_traced q del
    ([EvOpen p; EvSave (dest p) "WEBP" m q 6]
     ++ (if del then [EvUnlink p] else [])).
Proof.
  intros Hm. split; [|split].
  - intros t1 p' t2 Heq. destruct del; simpl in Heq.
    + destruct t1 as [|? [|? [|? t1]]]; simplify_list_eq.
      * by exists [], m.
      * by destruct t1.
    + destruct t1 as [|? [|? t1]]; simplify_list_eq. by destruct t1.
  - intros p' fmt m' q' meth H. apply elem_of_app in H as [H|H].
    + apply elem_of_cons in H as [?|H]; [done|].
      apply list_elem_of_singleton in H. by simplify_eq.
    + destruct del; [|by apply elem_of_nil in H].
      by apply list_elem_of_singleton in H.
  - intros -> p' H. simpl in H.
    apply elem_of_cons in H as [?|H]; [done|].
    by apply list_elem_of_singleton in H.
Qed.

Lemma steps_trace l w w' :
  steps env q del l w w' →
  ∃ t, events w' = events w ++ t ∧ well_traced q del t ∧ opened t = l.
Proof.
  induction 1 as [w|p l w w1 w' Hs Hl (t & Ht & Hwt & Hop)].
  - exists []. rewrite app_nil_r. split; [done|]. split; [apply well_traced_nil|done].
  - inversion Hs as [? img ? ? ? ? ? ? ? ? ? ? ? ? Hev]; subst.
    eexists. split; [by rewrite Ht, Hev, <-app_assoc|].
    split.
    + apply well_traced_app; [|done].
      apply well_traced_turn, target_mode_cases.
    + unfold opened. by destruct del.
Qed.

Lemma step_fail_trace p w w' :
  step_fail env q del p w w' →
  ∃ t, events w' = events w ++ t ∧ well_traced q del t
    ∧ (opened t = [] ∨ opened t = [p]).
Proof.
  assert (well_traced q del [EvOpen p]) as Hopen.
  { split; [|split].
    - intros t1 ? t2 Heq. destruct t1 as [|? t1]; simplify_list_eq.
      by destruct t1.
    - intros ????? H. by apply list_elem_of_singleton in H.
    - intros _ ? H. by apply list_elem_of_singleton in H. }
  intros [evs [->| ->] _ Hev _|_ _ Hev _|img px out Hdel _ _ Hev _].
  - exists []. split; [done|]. split; [apply well_traced_nil|by left].
  - exists [EvOpen p]. split; [done|]. split; [done|by right].
  - exists [EvOpen p]. split; [done|]. split; [done|by right].
  - eexists. split; [done|]. split; [|by right]. split; [|split].
    + intros t1 ? t2 Heq. destruct t1 as [|? [|? t1]]; simplify_list_eq.
      by destruct t1.
    + intros ????? H. apply elem_of_cons in H as [?|H]; [done|].
      apply list_elem_of_singleton in H. simplify_eq.
      repeat split; try done. apply target_mode_cases.
    + by rewrite Hdel.
Qed.

End loop.

(** What a turn that raises leaves behind. *)
Lemma after_refused_save_ne env fs d k :
  k ≠ d → after_refused_save env fs d !! k = fs !! k.
Proof.
  intros Hk. unfold after_refused_save.
  destruct (fs !! d); [by rewrite lookup_insert_ne|].
  destruct (os_denied env OpUnlink d); [by rewrite lookup_insert_ne|done].
Qed.

Lemma after_refused_save_eq env fs d :
  (is_Some (fs !! d) → after_refused_save env fs d !! d = Some (File []))
  ∧ (after_refused_save env fs d !! d = None
     ∨ after_refused_save env fs d !! d = Some (File []))
  ∧ (after_refused_save env fs d !! d = fs !! d
     ∨ after_refused_save env fs d !! d = Some (File [])).
Proof.
  unfold after_refused_save. destruct (fs !! d) as [x|] eqn:Hd.
  - rewrite lookup_insert_eq. auto.
  - split; [by intros [? ?]|].
    destruct (os_denied env OpUnlink d); [rewrite lookup_insert_eq|]; auto.
Qed.

Lemma step_fail_frame env q del p w w' k :
  step_fail env q del p w w' → k ≠ dest p → files w' !! k = files w !! k.
Proof.
  intros [evs _ Hf _ _|_ Hf _ _|img px out1 _ _ Hf _ _] Hk; rewrite Hf.
  - done.
  - by apply after_refused_save_ne.
  - by rewrite lookup_insert_ne.
Qed.

Lemma step_fail_dest env q del p w w' out :
  step_fail env q del p w w' → files w !! dest p = Some (File out) →
  ∃ out', files w' !! dest p = Some (File out').
Proof.
  intros [evs _ Hf _ _|_ Hf _ _|img px out1 _ _ Hf _ _] Hk; rewrite Hf.
  - eauto.
  - destruct (after_refused_save_eq env (files w) (dest p)) as [-> _]; eauto.
  - rewrite lookup_insert_eq. eauto.
Qed.

Lemma step_fail_stdout env q del p w w' : step_fail env q del p w w' → stdout w' = stdout w.
Proof. by intros [evs _ _ _ ?|_ _ _ ?|img px out _ _ _ _ ?]. Qed.

(** *** The whole run *)

Lemma source_files_are_sources fs root :
  Forall is_source_path (source_files fs root).
Proof.
  apply Forall_forall. intros p (n & -> & _ & Hn)%elem_of_source_files_in.
  by exists root, n.
Qed.

Lemma NoDup_source_files fs root : NoDup (source_files fs root).
Proof. apply NoDup_source_files_in, NoDup_scandir. Qed.

Lemma run_unfold env root q del w :
  convert_images_to_webp env root q del w
  = for_each env q del (source_files (files w) root) [] w.
Proof. done. Qed.

Lemma source_files_no_dir fs root :
  fs !! root ≠ Some Dir → source_files fs root = [].
Proof.
  intros Hroot. unfold source_files, scandir.
  by destruct (fs !! root) as [[|?]|].
Qed.

Lemma source_files_empty_dir fs root :
  scandir fs root = [] → source_files fs root = [].
Proof. unfold source_files. by intros ->. Qed.

Lemma print_pairs_spec res w :
  ∃ w', print_pairs res w = (w', Ok ())
    ∧ files w' = files w ∧ events w' = events w
    ∧ stdout w' = stdout w ++ (report_line <$> res).
Proof.
  revert w. induction res as [|[src dst] res IH]; intros w.
  - exists w. by rewrite app_nil_r.
  - destruct (IH (World (files w) (events w)
                    (stdout w ++ [src +:+ " -> " +:+ dst])))
      as (w' & Hrun & Hf & He & Ho).
    exists w'. split; [|split; [done|split; [done|]]].
    + simpl. erewrite bind_Ok; [|reflexivity]. done.
    + rewrite Ho. simpl. by rewrite <-app_assoc.
Qed.

(** Every run is a row of completed turns, followed by nothing when it
    returns and by a turn that raises when it does not. *)
Lemma run_inv env root q del w w' r :
  convert_images_to_webp env root q del w = (w', r) →
  ∃ pre rest w1,
    source_files (files w) root = pre ++ rest
    ∧ Forall is_source_path pre ∧ NoDup (pre ++ rest)
    ∧ steps env q del pre w w1
    ∧ match r with
      | Ok res =>
          rest = [] ∧ w' = w1 ∧ res = entry_of <$> source_files (files w) root
      | Raise e =>
          ∃ p rest', rest = p :: rest'
            ∧ for_each env q del pre [] w = (w1, Ok (entry_of <$> pre))
            ∧ convert_one env q del p w1 = (w', Raise e)
            ∧ step_fail env q del p w1 w'
      end.
Proof.
  rewrite run_unfold. intros Hrun.
  pose proof (source_files_are_sources (files w) root) as Hsrc.
  pose proof (NoDup_source_files (files w) root) as Hnd.
  apply for_each_inv in Hrun. destruct r as [res|e].
  - destruct Hrun as [-> Hs].
    exists (source_files (files w) root), [], w'.
    rewrite app_nil_r. done.
  - destruct Hrun as (pre & p & rest & w1 & Hl & Hs & Hpre & Hp & Hf).
    exists pre, (p :: rest), w1. rewrite Hl in Hsrc, Hnd.
    apply Forall_app in Hsrc as [Hsrc _]. repeat split; try done.
    exists p, rest. done.
Qed.

Lemma run_trace env root q del w w' r :
  convert_images_to_webp env root q del w = (w', r) →
  ∃ t, events w' = events w ++ t ∧ well_traced q del t.
Proof.
  intros (pre & rest & w1 & _ & _ & _ & Hs & Hr)%run_inv.
  destruct (steps_trace _ _ _ _ _ _ Hs) as (t1 & Ht1 & Hwt1 & _).
  destruct r as [res|e].
  - destruct Hr as (_ & -> & _). eauto.
  - destruct Hr as (p & rest' & _ & _ & _ & Hf).
    destruct (step_fail_trace _ _ _ _ _ _ Hf) as (t2 & Ht2 & Hwt2 & _).
    exists (t1 ++ t2). split; [by rewrite Ht2, Ht1, <-app_assoc|].
    by apply well_traced_app.
Qed.

(** *** Names with a common prefix *)

Lemma compare_app_prefix s a b : ((s +:+ a) ?= (s +:+ b))%string = (a ?= b)%string.
Proof.
  induction s as [|c s IH]; [done|]. rewrite !str_app_cons. simpl.
  unfold Ascii.compare. by rewrite N.compare_refl.
Qed.

Lemma le_app_prefix s a b : String.le (s +:+ a) (s +:+ b) ↔ String.le a b.
Proof. unfold String.le, String.leb. by rewrite compare_app_prefix. Qed.

End Loop.

(** ** Whole runs: frames, causes of a raise, writers of a destination *)

Module Rerun.
Import PurePath Names Discovery Turn Loop.

(** A run leaves alone every path that is neither the destination of one
    of its source files nor, when it deletes, one of those files. *)
Lemma run_frame env root q del w w' r k :
  convert_images_to_webp env root q del w = (w', r) →
  k ∉ dest <$> source_files (files w) root →
  (del = true → k ∉ source_files (files w) root) →
  files w' !! k = files w !! k.
Proof.
  intros (pre & rest & w1 & Hl & _ & _ & Hs & Hr)%run_inv Hk Hkl.
  rewrite Hl in Hk, Hkl. rewrite fmap_app, not_elem_of_app in Hk.
  destruct Hk as [Hk1 Hk2].
  assert (files w1 !! k = files w !! k) as Hpre.
  { eapply steps_frame; [done..|]. intros Hd Hin. apply (Hkl Hd).
    apply elem_of_app. by left. }
  destruct r as [res|e].
  - by destruct Hr as (_ & -> & _).
  - destruct Hr as (p & rest' & -> & _ & _ & Hf).
    rewrite <-Hpre. eapply step_fail_frame; [done|].
    intros ->. apply Hk2. rewrite fmap_cons. by left.
Qed.

Lemma root_not_child (root : Path) (n : string) : root ≠ root ++ [n].
Proof.
  intros Heq. apply (f_equal length) in Heq. rewrite length_app in Heq.
  simpl in Heq. lia.
Qed.

Lemma root_not_dest fs root : root ∉ dest <$> source_files fs root.
Proof.
  intros (p & Heq & Hp)%list_elem_of_fmap.
  apply elem_of_source_files_in in Hp as (n & -> & _ & Hn).
  rewrite dest_child in Heq by done. by apply root_not_child in Heq.
Qed.

Lemma root_not_source fs root : root ∉ source_files fs root.
Proof.
  intros (n & Heq & _)%elem_of_source_files_in. by apply root_not_child in Heq.
Qed.

Lemma run_keeps_root env root q del w w' r :
  convert_images_to_webp env root q del w = (w', r) →
  files w' !! root = files w !! root.
Proof.
  intros Hrun. eapply run_frame; [done|apply root_not_dest|].
  intros _. apply root_not_source.
Qed.

Lemma elem_of_source_files fs root p :
  p ∈ source_files fs root ↔
  ∃ n, p = root ++ [n] ∧ fs !! root = Some Dir ∧ is_Some (fs !! p)
    ∧ is_source_name n.
Proof.
  unfold source_files. rewrite elem_of_source_files_in.
  setoid_rewrite elem_of_scandir. naive_solver.
Qed.

Lemma source_files_ext fs fs' root :
  (∀ p, p ∈ source_files fs' root ↔ p ∈ source_files fs root) →
  source_files fs' root = source_files fs root.
Proof.
  intros Hmem. apply (StronglySorted_unique PurePath.le);
    [apply sorted_source_files_in..|].
  apply NoDup_Permutation; [apply NoDup_source_files..|done].
Qed.

(** *** Why a turn raises *)

Lemma webp_of_Some env q data img px out :
  pil_decode env data = Some img →
  pil_recolor env (mode img) (target_mode img) (pixels img) = Some px →
  pil_encode env "WEBP" (Image (target_mode img) px) q 6 = Some out →
  webp_of env q data = Some out.
Proof. intros Hdec Hpx Henc. unfold webp_of. rewrite Hdec. simpl. by rewrite Hpx. Qed.

Lemma convert_one_raise_inv env q del p w w' e :
  name p ≠ EmptyString → p ≠ dest p →
  convert_one env q del p w = (w', Raise e) →
  ∃ m, turn_raises env q del p (files w) e m
    ∧ files w' = left_by env p (files w) m.
Proof.
  intros Hname Hne. unfold convert_one.
  intros [(w1 & d & Hs & Hk)|(e' & Hs & _)]%bind_inv;
    unfold with_suffix in Hs; rewrite with_suffix_webp in Hs by done;
    cbv [mret M_ret] in Hs; simplify_eq.
  apply bind_inv in Hk as [(w2 & img & Ho & Hk)|(e' & Ho & [= <-])].
  2:{ unfold Image_open in Ho.
      apply bind_inv in Ho as [(w2 & data & Hr & Hk)|(e' & Hr & [= <-])];
        unfold read_bytes in Hr;
        destruct (files w1 !! p) as [[|data']|] eqn:Hp;
        try destruct (os_denied env OpRead p) eqn:Hd; simplify_eq.
      all: try (exists Untouched; (split; [|done]); econstructor; solve [eauto]).
      destruct (pil_decode env data) as [img|] eqn:Hdec.
      - apply bind_inv in Hk as [(? & ? & ? & Hk)|(? & Hk & ?)];
          cbv [emit mret M_ret] in Hk; simplify_eq.
      - cbv [raise] in Hk. simplify_eq. exists Untouched.
        split; [by eapply RaiseNotAnImage|done]. }
  apply Image_open_inv in Ho as (data & Hp & Hread & Hdec & ->).
  assert ((if bool_decide (mode img ∈ ["RGBA"; "P"])
           then convert env p "RGBA" img else convert env p "RGB" img)
          = convert env p (target_mode img) img) as Hconv.
  { unfold target_mode. by case_bool_decide. }
  rewrite Hconv in Hk. unfold convert at 1 in Hk.
  destruct (pil_recolor env (mode img) (target_mode img) (pixels img))
    as [px|] eqn:Hpx; cycle 1.
  { apply bind_inv in Hk as [(? & ? & Hc & _)|(e' & Hc & [= <-])];
      cbv [raise] in Hc; simplify_eq.
    exists Untouched. split; [by eapply RaiseConvert|done]. }
  apply bind_inv in Hk as [(w2 & out & Hc & Hk)|(? & Hc & _)];
    cbv [mret M_ret] in Hc; simplify_eq.
  apply bind_inv in Hk as [(w2 & [] & Hsv & Hk)|(e' & Hsv & [= <-])];
    apply save_inv in Hsv; simpl in Hsv.
  2:{ destruct Hsv as [[-> [[Hd ->]|(Hd & Hwr & ->)]]
                      |(Henc & Hd & Hwr & -> & ->)].
      - exists Untouched. split; [by eapply RaiseDestIsDir|done].
      - exists Untouched. split; [by eapply RaiseWriteRefused|done].
      - exists Refused. split; [by eapply RaiseEncode|done]. }
  destruct Hsv as (odata & Henc & Hnd & Hwr & ->).
  pose proof (webp_of_Some _ _ _ _ _ _ Hdec Hpx Henc) as Hweb.
  destruct del; cycle 1.
  { cbv [mbind M_bind mret M_ret] in Hk. simplify_eq. }
  apply bind_inv in Hk as [(? & ? & ? & Hk)|(e' & Hu & [= <-])];
    [cbv [mret M_ret] in Hk; simplify_eq|].
  unfold unlink in Hu. simpl in Hu. rewrite lookup_insert_ne, Hp in Hu by done.
  destruct (os_denied env OpUnlink p) eqn:Hud; simplify_eq.
  exists (Written odata). split; [|done]. by eapply RaiseUnlinkRefused.
Qed.

(** *** Writers of a destination, and what completed turns needed *)

Lemma fmap_split_last {A B} `{EqDecision B} (f : A → B) (l : list A) k :
  k ∈ f <$> l → ∃ l1 x l2, l = l1 ++ x :: l2 ∧ f x = k ∧ k ∉ f <$> l2.
Proof.
  induction l as [|x l IH]; [by intros ?%elem_of_nil|].
  intros Hk. destruct (decide (k ∈ f <$> l)) as [Hin|Hout].
  - destruct (IH Hin) as (l1 & y & l2 & -> & Hy & Hl2).
    by exists (x :: l1), y, l2.
  - rewrite fmap_cons in Hk. apply elem_of_cons in Hk as [->|]; [|done].
    by exists [], x, l.
Qed.

Lemma fmap_split_first {A B} `{EqDecision B} (f : A → B) (l : list A) k :
  k ∈ f <$> l → ∃ l1 x l2, l = l1 ++ x :: l2 ∧ f x = k ∧ k ∉ f <$> l1.
Proof.
  induction l as [|x l IH]; [by intros ?%elem_of_nil|].
  intros Hk. destruct (decide (f x = k)) as [Heq|Hne].
  - exists [], x, l. split; [done|]. split; [done|]. by intros ?%elem_of_nil.
  - rewrite fmap_cons in Hk. apply elem_of_cons in Hk as [->|Hin]; [done|].
    destruct (IH Hin) as (l1 & y & l2 & -> & Hy & Hl1).
    exists (x :: l1), y, l2. split; [done|]. split; [done|].
    rewrite fmap_cons, not_elem_of_cons. split; [congruence|done].
Qed.

(** What a completed turn found, told of the directory the run began with. *)
Lemma steps_turn env q del l w w' p :
  steps env q del l w w' → Forall is_source_path l → NoDup l → p ∈ l →
  ∃ data img px out,
    files w !! p = Some (File data)
    ∧ os_denied env OpRead p = false
    ∧ pil_decode env data = Some img
    ∧ pil_recolor env (mode img) (target_mode img) (pixels img) = Some px
    ∧ pil_encode env "WEBP" (Image (target_mode img) px) q 6 = Some out
    ∧ os_denied env OpWrite (dest p) = false
    ∧ (del = true → os_denied env OpUnlink p = false).
Proof.
  intros Hs Hsrc Hnd Hp.
  destruct (list_elem_of_split _ _ Hp) as (la & lb & ->).
  apply steps_app in Hs as (w1 & H1 & H2).
  inversion H2 as [|? ? ? w2 ? Hturn _]; subst.
  inversion Hturn as [data img px out]; subst.
  exists data, img, px, out. repeat split; try done.
  rewrite <-(steps_frame _ _ _ _ _ _ p H1); [done| |].
  - apply source_not_in_dests. rewrite Forall_forall in Hsrc. apply Hsrc.
    rewrite elem_of_app, elem_of_cons. auto.
  - intros _ Hin. apply NoDup_app in Hnd as (_ & Hdisj & _).
    eapply Hdisj; [done|]. by left.
Qed.

(** The destination of a completed turn was not a directory to begin with. *)
Lemma steps_dest_not_dir env q del l w w' p :
  steps env q del l w w' → Forall is_source_path l → p ∈ l →
  files w !! dest p ≠ Some Dir.
Proof.
  intros Hs Hsrc Hp.
  destruct (fmap_split_first dest l (dest p)) as (l1 & x & l2 & -> & Hx & Hl1).
  { by apply list_elem_of_fmap_2. }
  apply steps_app in Hs as (w1 & H1 & H2).
  inversion H2 as [|? ? ? w2 ? Hturn _]; subst.
  inversion Hturn as [? ? ? ? ? ? ? ? ? ? Hnd]; subst.
  rewrite <-Hx, <-(steps_frame _ _ _ _ _ _ (dest x) H1); [done|by rewrite Hx|].
  intros _. apply dest_not_in_sources.
  by apply Forall_app in Hsrc as [? _].
Qed.

(** A run without deletion leaves discovery as it was. *)
Lemma source_files_after_keep env root q w w' r :
  convert_images_to_webp env root q false w = (w', r) →
  source_files (files w') root = source_files (files w) root.
Proof.
  intros Hrun. apply source_files_ext. intros p.
  rewrite !elem_of_source_files.
  assert (∀ n, is_source_name n →
            files w' !! (root ++ [n]) = files w !! (root ++ [n])) as Hsame.
  { intros n Hn. eapply run_frame; [done| |done].
    apply source_not_in_dests. by exists root, n. }
  rewrite (run_keeps_root _ _ _ _ _ _ _ Hrun).
  split; intros (n & -> & Hroot & Hp & Hn); exists n;
    [rewrite Hsame in Hp by done|rewrite Hsame by done]; done.
Qed.

(** Completed turns neither make nor remove a directory. *)
Lemma steps_dir_iff env q del l w w' k :
  steps env q del l w w' → Forall is_source_path l → NoDup l →
  files w' !! k = Some Dir ↔ files w !! k = Some Dir.
Proof.
  intros Hs Hsrc Hnd.
  destruct (decide (k ∈ dest <$> l)) as [Hin|Hout].
  - apply list_elem_of_fmap in Hin as (p & -> & Hp).
    destruct (steps_written _ _ _ _ _ _ p Hs Hsrc Hp) as [out Hout].
    pose proof (steps_dest_not_dir _ _ _ _ _ _ p Hs Hsrc Hp) as Hnd0.
    rewrite Hout. split; [done|]. by intros ?.
  - destruct (decide (k ∈ l)) as [Hkl|Hkl]; destruct del eqn:Hdel.
    + destruct (steps_turn _ _ _ _ _ _ k Hs Hsrc Hnd Hkl)
        as (data & _ & _ & _ & Hdata & _).
      rewrite (steps_deleted _ _ _ _ _ _ k Hs eq_refl Hsrc Hkl), Hdata.
      split; intros ?; discriminate.
    + by rewrite (steps_frame _ _ _ _ _ _ k Hs).
    + by rewrite (steps_frame _ _ _ _ _ _ k Hs).
    + by rewrite (steps_frame _ _ _ _ _ _ k Hs).
Qed.

(** A turn that raises neither makes nor removes a directory. *)
Lemma raise_dir_iff env q del p w w' e k :
  is_source_path p →
  convert_one env q del p w = (w', Raise e) →
  files w' !! k = Some Dir ↔ files w !! k = Some Dir.
Proof.
  intros Hp Hrun.
  destruct (convert_one_raise_inv _ _ _ _ _ _ _ (source_path_name p Hp)
              (source_path_ne_dest p Hp) Hrun) as ([| |out] & Hwhy & ->);
    [done|..]; simpl.
  - inversion Hwhy as [| | | | | | |? ? ? _ _ _ _ Hnd|]; subst.
    destruct (decide (k = dest p)) as [->|Hne].
    + destruct (after_refused_save_eq env (files w) (dest p))
        as (_ & [-> | ->] & _); (split; [done|]); by intros ?.
    + by rewrite after_refused_save_ne.
  - inversion Hwhy as [| | | | | | | |? ? _ _ _ _ Hnd]; subst.
    destruct (decide (k = dest p)) as [->|Hne].
    + rewrite lookup_insert_eq. split; [done|]. by intros ?.
    + by rewrite lookup_insert_ne.
Qed.

(** The cause of a raise, told of another directory that agrees with the
    one of the turn on the source and on whether the destination is a
    directory. *)
Lemma turn_raises_transfer env q del p fs1 fs e written :
  fs1 !! p = fs !! p →
  (fs1 !! dest p = Some Dir ↔ fs !! dest p = Some Dir) →
  turn_raises env q del p fs1 e written → turn_raises env q del p fs e written.
Proof.
  intros Hp Hd Hwhy. inversion Hwhy; subst; rewrite Hp in *.
  - by eapply RaiseSourceMissing.
  - by eapply RaiseSourceIsDir.
  - by eapply RaiseReadRefused.
  - by eapply RaiseNotAnImage.
  - by eapply RaiseConvert.
  - eapply RaiseDestIsDir; [done..|]. by apply Hd.
  - eapply RaiseWriteRefused; [done..| |done]. by rewrite <-Hd.
  - eapply RaiseEncode; [done..| |done|done]. by rewrite <-Hd.
  - eapply RaiseUnlinkRefused; [done..| |done|done]. by rewrite <-Hd.
Qed.

(** *** The directory after a run that returns *)

Lemma dom_after_run env root q del w w' res :
  convert_images_to_webp env root q del w = (w', Ok res) →
  dom (files w')
  =@{gset Path}
    (if del then dom (files w) ∖ list_to_set (source_files (files w) root)
     else dom (files w))
    ∪ list_to_set (dest <$> source_files (files w) root).
Proof.
  intros Hrun.
  pose proof Hrun as (pre & rest & w0 & Hl & Hsrc & _ & Hs & Hr)%run_inv.
  destruct Hr as (-> & <- & _). rewrite app_nil_r in Hl. subst pre.
  apply set_eq. intros k.
  rewrite elem_of_union, elem_of_list_to_set, elem_of_dom.
  destruct (decide (k ∈ dest <$> source_files (files w) root)) as [Hin|Hout].
  - pose proof Hin as (p & -> & Hp)%list_elem_of_fmap.
    destruct (steps_written _ _ _ _ _ _ p Hs Hsrc Hp) as [out ->].
    split; [by right|eauto].
  - destruct del.
    + rewrite elem_of_difference, elem_of_list_to_set, elem_of_dom.
      destruct (decide (k ∈ source_files (files w) root)) as [Hkl|Hkl].
      * rewrite (steps_deleted _ _ _ _ _ _ k Hs eq_refl Hsrc Hkl).
        split; [by intros [? ?]|]. intros [[_ ?]|?]; done.
      * rewrite (steps_frame _ _ _ _ _ _ k Hs) by done. tauto.
    + rewrite elem_of_dom, (steps_frame _ _ _ _ _ _ k Hs) by done. tauto.
Qed.

(** *** The result, by names *)

Lemma names_sorted root (l : list Path) :
  (∀ p, p ∈ l → ∃ n, p = root ++ [n] ∧ is_source_name n) →
  StronglySorted PurePath.le l → StronglySorted String.le (name <$> l).
Proof.
  induction l as [|x l IH]; intros Hl Hs; [constructor|].
  apply StronglySorted_cons in Hs as [Hx Hs]. rewrite fmap_cons.
  apply StronglySorted_cons. split.
  - apply Forall_forall. intros ? (y & -> & Hy)%list_elem_of_fmap.
    rewrite Forall_forall in Hx. specialize (Hx y Hy).
    destruct (Hl x) as (a & -> & Ha); [by left|].
    destruct (Hl y) as (b & -> & Hb); [by right|].
    rewrite !name_source by done. by apply (PathOrder.le_siblings root).
  - apply IH; [|done]. intros p Hp. apply Hl. by right.
Qed.

Lemma names_NoDup root (l : list Path) :
  (∀ p, p ∈ l → ∃ n, p = root ++ [n] ∧ is_source_name n) →
  NoDup l → NoDup (name <$> l).
Proof.
  intros Hl. apply NoDup_fmap_2_strong. intros x y Hx Hy.
  destruct (Hl x Hx) as (a & -> & Ha). destruct (Hl y Hy) as (b & -> & Hb).
  rewrite !name_source by done. by intros ->.
Qed.

(** *** The exact trace of completed turns *)

Lemma steps_trace_exact env q del l w w' :
  steps env q del l w w' →
  ∃ t, events w' = events w ++ t
    ∧ opened t = l ∧ saved t = dest <$> l
    ∧ unlinked t = (if del then l else [])
    ∧ length t = (if del then 3 else 2) * length l.
Proof.
  induction 1 as [w|p l w w1 w' Hs Hl (t & Ht & Hop & Hsv & Hun & Hlen)].
  - exists []. rewrite app_nil_r. by destruct del.
  - inversion Hs as [? img ? ? ? ? ? ? ? ? ? ? ? ? Hev].
    exists (([EvOpen p; EvSave (dest p) "WEBP" (target_mode img) q 6]
             ++ (if del then [EvUnlink p] else [])) ++ t).
    split; [by rewrite Ht, Hev, <-app_assoc|].
    unfold opened, saved, unlinked in *. rewrite !omap_app, length_app.
    rewrite Hop, Hsv, Hun, Hlen.
    destruct del; simpl; repeat split; try done; lia.
Qed.

(** *** Suffixes *)

Lemma str_drop_app pre suf : Str.drop (String.length pre) (pre +:+ suf) = suf.
Proof. induction pre as [|a pre IH]; [by destruct suf|]. by rewrite str_app_cons. Qed.

Lemma stem_of_name_nonempty n : n ≠ EmptyString → stem_of_name n ≠ EmptyString.
Proof.
  intros Hn. unfold stem_of_name.
  destruct (Str.rfind "." n) as [i|]; [|done].
  destruct (bool_decide (0 < i)) eqn:Hi; [|done].
  destruct (bool_decide (i < String.length n - 1)); [|done]. simpl.
  apply bool_decide_eq_true in Hi. destruct i as [|i]; [lia|].
  by destruct n.
Qed.

Lemma suffix_of_name_webp st :
  st ≠ EmptyString → suffix_of_name (st +:+ ".webp") = ".webp".
Proof.
  intros Hst. unfold suffix_of_name.
  rewrite (rfind_app _ _ _ 0) by done.
  rewrite Nat.add_0_r, str_app_length. destruct st as [|a st]; [done|].
  simpl String.length. rewrite !bool_decide_eq_true_2 by lia. simpl andb.
  cbv iota. change (S (String.length st)) with (String.length (String a st)).
  apply str_drop_app.
Qed.

(** *** A turn that deletes, taken apart *)

Lemma world_eq (a b : world) :
  files a = files b → events a = events b → stdout a = stdout b → a = b.
Proof. destruct a, b; simpl. by intros -> -> ->. Qed.

(** A turn with [delete_original] is the turn without it, followed by the
    [unlink]; the [unlink] finds the source as it was and the destination
    holding the conversion of the source. *)
Lemma turn_split env q p w wb e :
  name p ≠ EmptyString → p ≠ dest p →
  convert_one env q true p w = (wb, Ok e) →
  ∃ wa data out,
    convert_one env q false p w = (wa, Ok e)
    ∧ unlink env p wa = (wb, Ok ())
    ∧ files w !! p = Some (File data)
    ∧ webp_of env q data = Some out
    ∧ files wa !! p = Some (File data)
    ∧ files wa !! dest p = Some (File out)
    ∧ files wb !! p = None
    ∧ files wb !! dest p = Some (File out).
Proof.
  intros Hname Hne Hrun.
  pose proof (convert_one_inv _ _ _ _ _ _ _ Hrun) as [-> Hs].
  inversion Hs as [data img px out _ Hp Hr Hdec Hpx Henc Hnd Hw Hu Hf Hev Hso].
  destruct (convert_one_ready env q false p w Hname Hne) as [wa Hrun_a].
  { exists data, img, px, out. repeat split; done. }
  pose proof (convert_one_inv _ _ _ _ _ _ _ Hrun_a) as [_ Hsa].
  inversion Hsa
    as [data' img' px' out' _ Hp' _ Hdec' Hpx' Henc' _ _ _ Hf' Hev' Hso'].
  assert (data' = data) as -> by congruence.
  assert (img' = img) as -> by congruence.
  assert (px' = px) as -> by congruence.
  assert (out' = out) as -> by congruence.
  assert (files wa !! p = Some (File data)) as Hpa.
  { by rewrite Hf', lookup_insert_ne. }
  exists wa, data, out. split; [done|]. split.
  { rewrite (unlink_Ok env p data wa Hpa (Hu eq_refl)). f_equal.
    apply world_eq; simpl.
    - by rewrite Hf, Hf'.
    - rewrite Hev, Hev'. by rewrite app_nil_r, <-app_assoc.
    - by rewrite Hso, Hso'. }
  split; [done|]. split; [by eapply webp_of_Some|]. split; [done|].
  split; [by rewrite Hf', lookup_insert_eq|]. split.
  - by rewrite Hf, lookup_delete_eq.
  - by rewrite Hf, lookup_delete_ne, lookup_insert_eq.
Qed.

(** The turn of one file inside a loop that returns. *)
Lemma for_each_turn env q del l1 p l2 acc w w' res :
  for_each env q del (l1 ++ p :: l2) acc w = (w', Ok res) →
  ∃ w0 wb,
    for_each env q del l1 acc w = (w0, Ok (acc ++ (entry_of <$> l1)))
    ∧ convert_one env q del p w0 = (wb, Ok (entry_of p))
    ∧ steps env q del l1 w w0.
Proof.
  rewrite for_each_app.
  intros [(w0 & a & H1 & H2)|(e & _ & ?)]%bind_inv; [|done].
  pose proof (for_each_inv _ _ _ _ _ _ _ _ H1) as [-> Hs1].
  simpl in H2. apply bind_inv in H2 as [(wb & e & Hp & Hk)|(e & _ & ?)]; [|done].
  pose proof (convert_one_inv _ _ _ _ _ _ _ Hp) as [-> _]. eauto.
Qed.

(** After completed turns, the destination of each of their files holds
    the conversion of the original bytes of the last file that has this
    destination. *)
Lemma steps_dest_holds env q del l w w' p :
  steps env q del l w w' → Forall is_source_path l → NoDup l → p ∈ l →
  ∃ g data out,
    g ∈ l ∧ dest g = dest p
    ∧ (∃ l1 l2, l = l1 ++ g :: l2 ∧ dest p ∉ dest <$> l2)
    ∧ files w !! g = Some (File data)
    ∧ webp_of env q data = Some out
    ∧ files w' !! dest p = Some (File out).
Proof.
  intros Hs Hsrc Hnd Hp.
  destruct (fmap_split_last dest l (dest p))
    as (l1 & g & l2 & Hl & Hg & Hl2); [by apply list_elem_of_fmap_2|].
  subst l. rewrite <-Hg in Hl2.
  destruct (steps_last_writer _ _ _ _ _ _ _ _ Hs Hsrc Hnd Hl2)
    as (data & out & Hdata & Hweb & Hout).
  exists g, data, out. rewrite <-Hg.
  split; [rewrite elem_of_app, elem_of_cons; auto|].
  split; [done|]. split; [by exists l1, l2|]. done.
Qed.

End Rerun.

(** * The claims *)

Import PurePath Names Discovery Turn Loop Rerun.



(** C2. The paths [convert_images_to_webp] works on are exactly the entries
    directly inside [root] (whatever their kind) whose names end in [.png],
    [.jpg] or [.jpeg], in that casing; the list is sorted by path and has
    no repetition, and for entries of one directory the order of paths is
    the lexicographic order of the full path strings, written with any
    common directory prefix; a run opens them in that order (all of them
    when it returns, a prefix when it raises); and an entry with another
    extension, such as [.gif] or [.PNG], is neither in the list nor a
    source in the result. *)
Theorem discovery_selects_and_sorts env root q del w :
  let l := source_files (files w) root in
  (∀ p, p ∈ l ↔
     ∃ n, p = root ++ [n]
       ∧ files w !! root = Some Dir ∧ is_Some (files w !! (root ++ [n]))
       ∧ (ends_with ".png" n ∨ ends_with ".jpg" n ∨ ends_with ".jpeg" n))
  ∧ StronglySorted PurePath.le l ∧ NoDup l
  ∧ (∀ dir a b,
       PurePath.le (root ++ [a]) (root ++ [b])
       ↔ String.le (dir +:+ a) (dir +:+ b))
  ∧ (∀ w' r, convert_images_to_webp env root q del w = (w', r) →
       ∃ t, events w' = events w ++ t
         ∧ (opened t `prefix_of` l)
         ∧ ∀ res, r = Ok res →
             opened t = l
             ∧ ∀ src dst, (src, dst) ∈ res →
                 root ++ [src] ∈ l ∧ is_source_name src)
  ∧ (∀ n, ends_with ".gif" n ∨ ends_with ".PNG" n →
       (root ++ [n] ∉ l)
       ∧ ∀ w' res dst, convert_images_to_webp env root q del w = (w', Ok res) →
           (n, dst) ∉ res).
Proof.
  intros l.
  assert (∀ p, p ∈ l ↔
     ∃ n, p = root ++ [n]
       ∧ files w !! root = Some Dir ∧ is_Some (files w !! (root ++ [n]))
       ∧ is_source_name n) as Hmem.
  { intros p. unfold l, source_files. rewrite elem_of_source_files_in.
    setoid_rewrite elem_of_scandir. naive_solver. }
  assert (∀ w' res src dst,
            convert_images_to_webp env root q del w = (w', Ok res) →
            (src, dst) ∈ res → root ++ [src] ∈ l ∧ is_source_name src) as Hres.
  { intros w' res src dst Hrun Hin. rewrite run_unfold in Hrun.
    apply for_each_inv in Hrun as [-> _]. simpl in Hin.
    apply list_elem_of_fmap in Hin as (p & Heq & Hp).
    pose proof Hp as Hp'. apply Hmem in Hp' as (n & -> & _ & _ & Hn).
    unfold entry_of in Heq. rewrite name_source in Heq by done.
    by simplify_eq. }
  split; [done|]. split; [apply sorted_source_files_in|].
  split; [apply NoDup_source_files|]. split.
  { intros dir a b. by rewrite PathOrder.le_siblings, le_app_prefix. }
  split.
  - intros w' r Hrun. rewrite run_unfold in Hrun.
    pose proof Hrun as Hinv. apply for_each_inv in Hinv. destruct r as [res|e].
    + destruct Hinv as [-> Hs].
      destruct (steps_trace _ _ _ _ _ _ Hs) as (t & Ht & _ & Hop).
      exists t. split; [done|]. split; [by rewrite Hop|].
      intros res [= <-]. split; [done|]. intros src dst Hin. eauto.
    + destruct Hinv as (pre & p & rest & w1 & Hl & Hs & _ & _ & Hf).
      destruct (steps_trace _ _ _ _ _ _ Hs) as (t1 & Ht1 & _ & Hop1).
      destruct (step_fail_trace _ _ _ _ _ _ Hf) as (t2 & Ht2 & _ & Hop2).
      exists (t1 ++ t2). split; [by rewrite Ht2, Ht1, <-app_assoc|].
      split; [|done]. unfold opened in *. rewrite omap_app, Hop1.
      fold l in Hl. rewrite Hl. destruct Hop2 as [-> | ->].
      * rewrite app_nil_r. by apply prefix_app_r.
      * apply prefix_app. by exists rest.
  - intros n Hn.
    assert (¬ is_source_name n) as Hns.
    { intros Hs%source_name_last_char.
      destruct Hn as [Hn|Hn]; apply ends_with_last_char in Hn; try done;
        rewrite Hs in Hn; discriminate. }
    split.
    + intros (n' & Heq & _ & _ & Hn')%Hmem. by simplify_list_eq.
    + intros w' res dst Hrun Hin. destruct (Hres _ _ _ _ Hrun Hin). done.
Qed.

(** C2, at a directory that also holds [d.gif]. *)
Lemma discovery_selects_and_sorts_witness :
  Toy.root ++ ["d.gif"] ∉ source_files Toy.dir3 Toy.root.
Proof.
  destruct (discovery_selects_and_sorts Toy.env Toy.root 82 false
              (Toy.start Toy.dir3)) as (_ & _ & _ & _ & _ & H).
  apply (H "d.gif"). left. by exists "d".
Defined.

(** C3. In every turn that completes, the image that was opened is
    converted to mode RGBA (four bands) exactly when its mode is RGBA or P,
    and to mode RGB (three bands) in every other case, so that an LA image
    loses its alpha band; what is saved at the destination is the WEBP
    encoding of the converted image at the quality of the run and with
    method 6, the slowest and most thorough of the encoder.  And every save
    of every run, however the run ends, is a WEBP save of an RGBA or RGB
    image at that quality and with method 6. *)
Theorem turn_converts_by_mode env q del :
  (∀ p w w' e,
     convert_one env q del p w = (w', Ok e) →
     ∃ data img m px out,
       files w !! p = Some (File data)
       ∧ pil_decode env data = Some img
       ∧ (m = "RGBA" ∧ length (getbands m) = 4
            ∧ (mode img = "RGBA" ∨ mode img = "P")
          ∨ m = "RGB" ∧ length (getbands m) = 3
            ∧ mode img ≠ "RGBA" ∧ mode img ≠ "P")
       ∧ (mode img = "LA" →
          m = "RGB" ∧ "A" ∈ getbands (mode img) ∧ "A" ∉ getbands m)
       ∧ pil_recolor env (mode img) m (pixels img) = Some px
       ∧ pil_encode env "WEBP" (Image m px) q 6 = Some out
       ∧ EvSave (dest p) "WEBP" m q 6 ∈ events w'
       ∧ (p ≠ dest p → files w' !! dest p = Some (File out)))
  ∧ (∀ root w w' r,
       convert_images_to_webp env root q del w = (w', r) →
       ∃ t, events w' = events w ++ t
         ∧ ∀ p fmt m q' meth, EvSave p fmt m q' meth ∈ t →
             fmt = "WEBP" ∧ q' = q ∧ meth = 6%Z ∧ (m = "RGBA" ∨ m = "RGB")).
Proof.
  split; cycle 1.
  { intros root w w' r Hrun.
    destruct (run_trace _ _ _ _ _ _ _ Hrun) as (t & Ht & _ & Hsave & _).
    eauto. }
  intros p w w' e Hrun. apply convert_one_inv in Hrun as [_ Hs].
  inversion Hs as [data img px out _ Hp _ Hdec Hpx Henc _ _ _ Hf Hev _]; subst.
  exists data, img, (target_mode img), px, out.
  assert (target_mode img = "RGBA" ∧ (mode img = "RGBA" ∨ mode img = "P")
          ∨ target_mode img = "RGB" ∧ mode img ≠ "RGBA" ∧ mode img ≠ "P")
    as Hm.
  { unfold target_mode. case_bool_decide as Hin.
    - left. split; [done|]. rewrite !elem_of_cons, elem_of_nil in Hin. tauto.
    - right. split; [done|]. rewrite !elem_of_cons, elem_of_nil in Hin. tauto. }
  split; [done|]. split; [done|]. split.
  { destruct Hm as [[-> ?]|[-> ?]]; [left|right]; done. }
  split.
  { intros Hla.
    assert (target_mode img = "RGB") as ->.
    { destruct Hm as [[_ [H|H]]|[H _]]; [congruence..|done]. }
    rewrite Hla. split; [done|]. split.
    - apply elem_of_cons. right. by left.
    - change (getbands "RGB") with ["R"; "G"; "B"].
      rewrite !elem_of_cons, elem_of_nil.
      intros [?|[?|[?|[]]]]; discriminate. }
  split; [done|]. split; [done|]. split.
  - rewrite Hev. apply elem_of_app. right. apply elem_of_app. left.
    apply elem_of_cons. right. by left.
  - intros Hne. rewrite Hf. destruct del.
    + by rewrite lookup_delete_ne, lookup_insert_eq.
    + by rewrite lookup_insert_eq.
Qed.

(** C3, at a PNG file that holds an LA image. *)
Lemma turn_converts_by_mode_witness :
  ∃ w' data img m px out,
    files (Toy.start Toy.dir_la) !! (Toy.root ++ ["g.png"]) = Some (File data)
    ∧ pil_decode Toy.env data = Some img
    ∧ mode img = "LA" ∧ m = "RGB"
    ∧ pil_recolor Toy.env (mode img) m (pixels img) = Some px
    ∧ pil_encode Toy.env "WEBP" (Image m px) 82 6 = Some out
    ∧ files w' !! (Toy.root ++ ["g.webp"]) = Some (File out).
Proof.
  destruct (convert_one Toy.env 82 false (Toy.root ++ ["g.png"])
              (Toy.start Toy.dir_la)) as [w' r] eqn:Hrun.
  assert (r = Ok ("g.png", "g.webp")) as -> by (by vm_compute in Hrun; simplify_eq).
  destruct (turn_converts_by_mode Toy.env 82 false) as [Hturn _].
  destruct (Hturn _ _ _ _ Hrun)
    as (data & img & m & px & out & Hp & Hdec & _ & Hla & Hpx & Henc & _ & Hf).
  assert (data = [Byte.x02; Byte.x07]) as -> by (by vm_compute in Hp; simplify_eq).
  assert (img = Image "LA" [7%Z]) as -> by (by vm_compute in Hdec; simplify_eq).
  destruct (Hla eq_refl) as (-> & _).
  exists w', [Byte.x02; Byte.x07], (Image "LA" [7%Z]), "RGB", px, out.
  repeat split; try done. apply Hf. by vm_compute.
Defined.

(** C4. Without [delete_original], whichever way the run ends, every
    source file is still there with its content, and the only entries the
    run has changed are [.webp] destinations holding a file; no file is
    deleted.  With [delete_original], the source of every pair of a
    returned result is gone, and when the run raises the sources whose
    turn completed are gone.  Every source that is gone after the run was
    deleted by the [unlink] of its own turn, and that [unlink] ran in a
    directory in which the source was still there and its destination held
    the conversion of its bytes.  In the trace of every run each deletion
    comes right after the opening and the save of the file it deletes. *)
Theorem originals_kept_or_deleted env root q del w w' r :
  convert_images_to_webp env root q del w = (w', r) →
  let l := source_files (files w) root in
  (del = false →
     (∀ p, p ∈ l → is_Some (files w !! p) ∧ files w' !! p = files w !! p)
     ∧ (∀ k, files w' !! k ≠ files w !! k →
          ∃ p out, p ∈ l ∧ k = dest p
            ∧ name k = stem p +:+ ".webp"
            ∧ files w' !! k = Some (File out)))
  ∧ (del = true →
     (∀ res, r = Ok res →
        ∀ src dst, (src, dst) ∈ res → files w' !! (root ++ [src]) = None)
     ∧ (∀ e, r = Raise e →
          ∃ pre p rest w1, l = pre ++ p :: rest
            ∧ for_each env q del pre [] w = (w1, Ok (entry_of <$> pre))
            ∧ convert_one env q del p w1 = (w', Raise e)
            ∧ ∀ g, g ∈ pre → files w' !! g = None)
     ∧ (∀ g, g ∈ l → files w' !! g = None →
          ∃ before after w0 wa wb data out,
            l = before ++ g :: after
            ∧ for_each env q true before [] w = (w0, Ok (entry_of <$> before))
            ∧ convert_one env q true g w0 = (wb, Ok (entry_of g))
            ∧ convert_one env q false g w0 = (wa, Ok (entry_of g))
            ∧ unlink env g wa = (wb, Ok ())
            ∧ files w !! g = Some (File data)
            ∧ webp_of env q data = Some out
            ∧ files wa !! g = Some (File data)
            ∧ files wa !! dest g = Some (File out)
            ∧ files wb !! dest g = Some (File out)))
  ∧ (∃ t, events w' = events w ++ t
       ∧ deletes_follow_own_save q t
       ∧ (del = false → ∀ p, EvUnlink p ∉ t)).
Proof.
  intros Hrun l.
  pose proof (source_files_are_sources (files w) root) as Hsrc.
  fold l in Hsrc. rewrite Forall_forall in Hsrc.
  pose proof Hrun as (pre & rest & w1 & Hl & Hpre & Hnd & Hs & Hr)%run_inv.
  fold l in Hl.
  assert (∀ p, p ∈ l → is_Some (files w !! p)) as Hex.
  { intros p Hp. unfold l, source_files in Hp.
    apply elem_of_source_files_in in Hp as (n & -> & Hn & _).
    by apply elem_of_scandir in Hn as [_ ?]. }
  split; [|split].
  - intros ->.
    assert (∀ k, (∀ p, r = Raise p → k ≠ dest (hd k rest)) →
                 files w' !! k = files w1 !! k) as Hsame.
    { intros k Hk. destruct r as [res|e].
      - by destruct Hr as (_ & -> & _).
      - destruct Hr as (p & rest' & -> & _ & _ & Hf).
        eapply step_fail_frame; [done|]. by apply (Hk e). }
    split.
    + intros p Hp. split; [by apply Hex|].
      rewrite Hsame.
      * eapply steps_frame; [done| |done].
        apply source_not_in_dests. by apply Hsrc.
      * intros e _ Heq. eapply (dest_ne_source (hd p rest) p); [|done].
        by apply Hsrc.
    + intros k Hk.
      assert (∀ p, p ∈ l → k = dest p → ∀ out,
                files w' !! k = Some (File out) →
                ∃ p out, p ∈ l ∧ k = dest p
                  ∧ name k = stem p +:+ ".webp"
                  ∧ files w' !! k = Some (File out)) as Hyes.
      { intros p Hp -> out Hout. exists p, out. by rewrite name_dest. }
      destruct r as [res|e].
      * destruct Hr as (-> & -> & _). rewrite app_nil_r in Hl. subst pre.
        destruct (decide (k ∈ dest <$> l)) as [Hin|Hnin].
        -- apply list_elem_of_fmap in Hin as (p & -> & Hp).
           destruct (steps_written _ _ _ _ _ _ p Hs Hpre Hp) as [out Hout].
           by eapply Hyes.
        -- destruct Hk. by eapply steps_frame.
      * destruct Hr as (p & rest' & -> & _ & _ & Hf).
        assert (p ∈ l) as Hpl.
        { rewrite Hl, elem_of_app, elem_of_cons. auto. }
        destruct (decide (k = dest p)) as [->|Hkp].
        -- destruct (decide (dest p ∈ dest <$> pre)) as [Hin|Hnin].
           ++ apply list_elem_of_fmap in Hin as (g & Heq & Hg).
              destruct (steps_written _ _ _ _ _ _ g Hs Hpre Hg) as [out Hout].
              rewrite <-Heq in Hout.
              destruct (step_fail_dest _ _ _ _ _ _ _ Hf Hout) as [out' Hout'].
              by eapply Hyes.
           ++ assert (files w1 !! dest p = files w !! dest p) as Hw1.
              { by eapply steps_frame. }
              inversion Hf as [evs _ Hfiles _ _|_ Hfiles _ _|]; subst.
              ** destruct Hk. by rewrite Hfiles.
              ** destruct (after_refused_save_eq env (files w1) (dest p))
                   as (_ & _ & [Heq|Heq]); rewrite <-Hfiles in Heq.
                 --- destruct Hk. by rewrite Heq.
                 --- by eapply Hyes.
              ** done.
        -- rewrite (step_fail_frame _ _ _ _ _ _ _ Hf) by done.
           rewrite (step_fail_frame _ _ _ _ _ _ _ Hf) in Hk by done.
           destruct (decide (k ∈ dest <$> pre)) as [Hin|Hnin].
           ++ apply list_elem_of_fmap in Hin as (g & -> & Hg).
              destruct (steps_written _ _ _ _ _ _ g Hs Hpre Hg) as [out Hout].
              exists g, out. rewrite name_dest, Hl, elem_of_app. auto.
           ++ destruct Hk. by eapply steps_frame.
  - intros ->.
    assert (∀ g, g ∈ pre → files w' !! g = None) as Hgone.
    { intros g Hg. destruct r as [res|e].
      - destruct Hr as (_ & -> & _). eapply steps_deleted; eauto.
      - destruct Hr as (p & rest' & -> & _ & _ & Hf).
        rewrite (step_fail_frame _ _ _ _ _ _ _ Hf).
        + eapply steps_deleted; eauto.
        + intros Heq. eapply (dest_ne_source p g); [|done].
          apply Hsrc. rewrite Hl. apply elem_of_app. by left. }
    split; [|split].
    + intros res ->. destruct Hr as (-> & -> & ->).
      rewrite app_nil_r in Hl. subst pre.
      intros src dst (p & Heq & Hp)%list_elem_of_fmap.
      pose proof Hp as Hp'. unfold l, source_files in Hp'.
      apply elem_of_source_files_in in Hp' as (n & -> & _ & Hn).
      unfold entry_of in Heq. rewrite name_source in Heq by done.
      simplify_eq. by apply Hgone.
    + intros e ->. destruct Hr as (p & rest' & -> & Hfor & Hp & Hf).
      exists pre, p, rest', w1. done.
    + intros g Hgl Hnone.
      assert (∃ w1', for_each env q true pre [] w = (w1', Ok (entry_of <$> pre)))
        as [w1' Hfor].
      { destruct r as [res|e].
        - destruct Hr as (-> & -> & ->). rewrite app_nil_r in Hl. subst pre.
          rewrite run_unfold in Hrun. eauto.
        - destruct Hr as (p & rest' & -> & Hfor & _). eauto. }
      assert (g ∈ pre) as Hg.
      { rewrite Hl in Hgl. apply elem_of_app in Hgl as [?|Hin]; [done|].
        exfalso.
        assert (files w' !! g = files w !! g) as Hsame.
        { destruct r as [res|e].
          - destruct Hr as (-> & _). by apply elem_of_nil in Hin.
          - destruct Hr as (p & rest' & -> & _ & _ & Hf).
            rewrite (step_fail_frame _ _ _ _ _ _ _ Hf).
            + eapply steps_frame; [done| |].
              * apply source_not_in_dests. apply Hsrc. rewrite Hl.
                apply elem_of_app. by right.
              * intros _ Hgp. apply NoDup_app in Hnd as (_ & Hdisj & _).
                by eapply Hdisj.
            + intros Heq. eapply (dest_ne_source p g); [|done].
              apply Hsrc. rewrite Hl. apply elem_of_app. by right. }
        destruct (Hex g) as [x Hx].
        { rewrite Hl. apply elem_of_app. by right. }
        congruence. }
      destruct (list_elem_of_split _ _ Hg) as (before & mid & Hsplit).
      rewrite Hsplit in Hfor.
      destruct (for_each_turn _ _ _ _ _ _ _ _ _ _ Hfor)
        as (w0 & wb & Hbefore & Hturn & Hs0).
      assert (is_source_path g) as Hgs.
      { apply Hsrc. rewrite Hl. apply elem_of_app. by left. }
      destruct (turn_split _ _ _ _ _ _ (source_path_name g Hgs)
                  (source_path_ne_dest g Hgs) Hturn)
        as (wa & data & out & Hkeep & Hun & Hdata & Hweb & Hga & Hda & _ & Hdb).
      exists before, (mid ++ rest), w0, wa, wb, data, out.
      split; [by rewrite Hl, Hsplit, <-app_assoc|].
      repeat split; try done.
      rewrite <-Hdata. symmetry. eapply steps_frame; [done| |].
      * by apply source_not_in_dests.
      * intros _ Hin. rewrite Hsplit in Hnd.
        apply NoDup_app in Hnd as (Hnd & _ & _).
        apply NoDup_app in Hnd as (_ & Hdisj & _).
        eapply Hdisj; [done|]. by left.
  - destruct (run_trace _ _ _ _ _ _ _ Hrun) as (t & Ht & Hd & _ & Hno). eauto.
Qed.

(** C4, at a run that deletes the originals of three images. *)
Lemma originals_kept_or_deleted_witness :
  ∃ wa wb data out,
    unlink Toy.env (Toy.root ++ ["b.jpg"]) wa = (wb, Ok ())
    ∧ files wa !! (Toy.root ++ ["b.jpg"]) = Some (File data)
    ∧ webp_of Toy.env 82 data = Some out
    ∧ files wa !! (Toy.root ++ ["b.webp"]) = Some (File out).
Proof.
  destruct (convert_images_to_webp Toy.env Toy.root 82 true
              (Toy.start Toy.dir3)) as [w' r] eqn:Hrun.
  assert (files w' !! (Toy.root ++ ["b.jpg"]) = None) as Hnone.
  { vm_compute in Hrun. by injection Hrun as <- _. }
  destruct (originals_kept_or_deleted _ _ _ _ _ _ _ Hrun) as (_ & Hdel & _).
  destruct (Hdel eq_refl) as (_ & _ & Hown).
  destruct (Hown (Toy.root ++ ["b.jpg"]))
    as (before & after & w0 & wa & wb & data & out & _ & _ & _ & _ & Hun
        & _ & Hweb & Hga & Hda & _); [|exact Hnone|].
  { vm_compute source_files. rewrite !elem_of_cons. auto. }
  assert (dest (Toy.root ++ ["b.jpg"]) = Toy.root ++ ["b.webp"]) as Hd
    by reflexivity.
  rewrite Hd in Hda.
  exists wa, wb, data, out.
  exact (conj Hun (conj Hga (conj Hweb Hda))).
Defined.

(** C5, as the claim states it, fails when the file that raises has the
    destination of a file processed before it: [a.jpg] is converted to
    [a.webp] and deleted, then the save of [a.png] opens [a.webp], the
    encoder refuses the image, and [a.webp] is left empty, which is the
    conversion of nothing. *)
Lemma first_error_empties_shared_destination :
  ∃ w1 w',
    source_files Toy.dir_collide_big Toy.root
    = [Toy.root ++ ["a.jpg"]; Toy.root ++ ["a.png"]]
    ∧ for_each Toy.env_small 82 true [Toy.root ++ ["a.jpg"]] []
        (Toy.start Toy.dir_collide_big)
      = (w1, Ok [("a.jpg", "a.webp")])
    ∧ files w1 !! (Toy.root ++ ["a.webp"]) = Some (File [Byte.x57; Byte.x03])
    ∧ convert_images_to_webp Toy.env_small Toy.root 82 true
        (Toy.start Toy.dir_collide_big)
      = (w', Raise (EncodeError (Toy.root ++ ["a.webp"]) 82))
    ∧ files w' !! (Toy.root ++ ["a.jpg"]) = None
    ∧ files w' !! (Toy.root ++ ["a.webp"]) = Some (File [])
    ∧ ∀ data, webp_of Toy.env_small 82 data ≠ Some [].
Proof.
  do 2 eexists.
  split; [by vm_compute|]. split; [by vm_compute|]. split; [by vm_compute|].
  split; [by vm_compute|]. split; [by vm_compute|]. split; [by vm_compute|].
  intros data. unfold webp_of.
  destruct (pil_decode Toy.env_small data) as [img|]; [|done]. simpl.
  unfold Toy.encode_small, Toy.encode.
  repeat case_match; done.
Qed.

(** C5, amended. Nothing catches an error.  If the turns of the files
    before [p] complete and the turn of [p] raises [e], whether at opening,
    converting, saving or deleting, then the run raises [e] and returns no
    sequence.  Every run that raises has that shape, and then: the files
    before [p] are gone when [delete_original] is set and unchanged
    otherwise, and the destination of each of them holds the conversion of
    the last of them with that destination, unless it is also the
    destination of [p]; the destination of [p] is as the files before it
    left it, or empty when the encoder refused the save of [p] (always so
    when it was there), or the conversion of [p] when deleting [p] was
    refused; [p] itself and the files after it in sorted order are as they
    were, and so is every other path that no file before [p] wrote or
    deleted; none of the files after [p] was opened, and nothing is
    printed. *)
Theorem first_error_aborts env root q del w :
  let l := source_files (files w) root in
  (∀ pre p rest w1 res1 w2 e,
     l = pre ++ p :: rest →
     for_each env q del pre [] w = (w1, Ok res1) →
     convert_one env q del p w1 = (w2, Raise e) →
     convert_images_to_webp env root q del w = (w2, Raise e))
  ∧ (∀ w' e,
       convert_images_to_webp env root q del w = (w', Raise e) →
       ∃ pre p rest w1,
         l = pre ++ p :: rest
         ∧ for_each env q del pre [] w = (w1, Ok (entry_of <$> pre))
         ∧ convert_one env q del p w1 = (w', Raise e)
         ∧ (∀ g, g ∈ pre →
              (if del then files w' !! g = None
               else files w' !! g = files w !! g)
              ∧ ∃ g' data out,
                  g' ∈ pre ∧ dest g' = dest g
                  ∧ files w !! g' = Some (File data)
                  ∧ webp_of env q data = Some out
                  ∧ files w1 !! dest g = Some (File out)
                  ∧ (dest g ≠ dest p → files w' !! dest g = Some (File out)))
         ∧ (files w' !! dest p = files w1 !! dest p
            ∨ e = EncodeError (dest p) q
              ∧ files w' !! dest p = Some (File [])
            ∨ del = true ∧ e = PermissionError p
              ∧ ∃ data out,
                  files w !! p = Some (File data)
                  ∧ webp_of env q data = Some out
                  ∧ files w' !! dest p = Some (File out))
         ∧ (e = EncodeError (dest p) q → is_Some (files w1 !! dest p) →
            files w' !! dest p = Some (File []))
         ∧ (∀ g, g = p ∨ g ∈ rest → files w' !! g = files w !! g)
         ∧ (∀ k, k ∉ dest <$> (pre ++ [p]) → (del = true → k ∉ pre) →
              files w' !! k = files w !! k)
         ∧ (∃ t, events w' = events w ++ t
              ∧ ∀ g, g ∈ rest → g ∉ opened t)
         ∧ stdout w' = stdout w).
Proof.
  intros l. split.
  - intros pre p rest w1 res1 w2 e Hl Hpre Hp.
    rewrite run_unfold. fold l. rewrite Hl, for_each_app.
    rewrite (bind_Ok _ _ _ _ _ Hpre). simpl.
    by rewrite (bind_Raise _ _ _ _ _ Hp).
  - intros w' e Hrun.
    pose proof (source_files_are_sources (files w) root) as Hsrc.
    fold l in Hsrc. rewrite Forall_forall in Hsrc.
    pose proof Hrun as (pre & rest0 & w1 & Hl & Hpre & Hnd & Hs & Hr)%run_inv.
    destruct Hr as (p & rest & -> & Hfor & Hp & Hf). fold l in Hl.
    exists pre, p, rest, w1. split; [done|]. split; [done|]. split; [done|].
    assert (is_source_path p) as Hps.
    { apply Hsrc. rewrite Hl, elem_of_app, elem_of_cons. auto. }
    assert (files w1 !! p = files w !! p) as Hp1.
    { eapply steps_frame; [done|by apply source_not_in_dests|].
      intros _ Hin. apply NoDup_app in Hnd as (_ & Hdisj & _).
      eapply Hdisj; [done|]. by left. }
    destruct (convert_one_raise_inv _ _ _ _ _ _ _ (source_path_name p Hps)
                (source_path_ne_dest p Hps) Hp) as (m & Hwhy & Hleft).
    split; [|split; [|split; [|split; [|split; [|split]]]]].
    + intros g Hg.
      assert (is_source_path g) as Hgs.
      { apply Hsrc. rewrite Hl. apply elem_of_app. by left. }
      split.
      * rewrite (step_fail_frame _ _ _ _ _ _ _ Hf)
          by (intros Heq; by eapply (dest_ne_source p g)).
        destruct del eqn:Hdel.
        -- eapply steps_deleted; eauto.
        -- eapply steps_frame; [done| |done]. by apply source_not_in_dests.
      * apply NoDup_app in Hnd as (Hndpre & _ & _).
        destruct (steps_dest_holds _ _ _ _ _ _ g Hs Hpre Hndpre Hg)
          as (g' & data & out & Hg' & Hd & _ & Hdata & Hweb & Hout).
        exists g', data, out. repeat split; try done.
        intros Hne. by rewrite (step_fail_frame _ _ _ _ _ _ _ Hf).
    + destruct m as [| |out]; simpl in Hleft.
      * left. by rewrite Hleft.
      * inversion Hwhy; subst.
        destruct (after_refused_save_eq env (files w1) (dest p))
          as (_ & _ & [Heq|Heq]); rewrite <-Hleft in Heq; auto.
      * inversion Hwhy as [| | | | | | | |data ? Hdel Hdata _ Hweb]; subst.
        right. right. split; [done|]. split; [done|].
        exists data, out. rewrite <-Hp1. split; [done|]. split; [done|].
        by rewrite Hleft, lookup_insert_eq.
    + intros -> Hex. destruct m as [| |out]; simpl in Hleft.
      * inversion Hwhy.
      * rewrite Hleft.
        by destruct (after_refused_save_eq env (files w1) (dest p)) as [-> _].
      * inversion Hwhy.
    + intros g Hg.
      assert (g ∈ p :: rest) as Hin.
      { destruct Hg as [->|?]; [by left|by right]. }
      assert (is_source_path g) as Hgs.
      { apply Hsrc. rewrite Hl. apply elem_of_app. by right. }
      rewrite (step_fail_frame _ _ _ _ _ _ _ Hf)
        by (intros Heq; by eapply (dest_ne_source p g)).
      eapply steps_frame; [done|by apply source_not_in_dests|].
      intros _ Hpre'. apply NoDup_app in Hnd as (_ & Hdisj & _).
      by eapply Hdisj.
    + intros k Hk Hkpre. rewrite fmap_app, not_elem_of_app in Hk.
      destruct Hk as [Hk1 Hk2].
      rewrite (step_fail_frame _ _ _ _ _ _ _ Hf).
      * by eapply steps_frame.
      * intros ->. apply Hk2. by left.
    + destruct (steps_trace _ _ _ _ _ _ Hs) as (t1 & Ht1 & _ & Hop1).
      destruct (step_fail_trace _ _ _ _ _ _ Hf) as (t2 & Ht2 & _ & Hop2).
      exists (t1 ++ t2). split; [by rewrite Ht2, Ht1, <-app_assoc|].
      intros g Hg. unfold opened in *. rewrite omap_app, Hop1.
      apply NoDup_app in Hnd as (_ & Hdisj & Hnd2).
      apply NoDup_cons in Hnd2 as [Hp2 _].
      intros [Hin|Hin]%elem_of_app.
      * eapply Hdisj; [done|]. by right.
      * destruct Hop2 as [Ho|Ho]; rewrite Ho in Hin.
        -- by apply elem_of_nil in Hin.
        -- apply list_elem_of_singleton in Hin. by subst.
    + rewrite (step_fail_stdout _ _ _ _ _ _ Hf). by eapply steps_stdout.
Qed.

(** C5, at a run that deletes and meets an image that the encoder
    refuses, with the destination of the file before it. *)
Lemma first_error_aborts_witness :
  ∃ w', convert_images_to_webp Toy.env_small Toy.root 82 true
          (Toy.start Toy.dir_collide_big)
        = (w', Raise (EncodeError (Toy.root ++ ["a.webp"]) 82))
    ∧ files w' !! (Toy.root ++ ["a.webp"]) = Some (File []).
Proof.
  destruct (convert_images_to_webp Toy.env_small Toy.root 82 true
              (Toy.start Toy.dir_collide_big)) as [w' r] eqn:Hrun.
  assert (r = Raise (EncodeError (Toy.root ++ ["a.webp"]) 82)) as ->.
  { vm_compute in Hrun. by injection Hrun as _ <-. }
  destruct (first_error_aborts Toy.env_small Toy.root 82 true
              (Toy.start Toy.dir_collide_big)) as [_ Hinv].
  destruct (Hinv _ _ Hrun)
    as (pre & p & rest & w1 & Hl & Hfor & Hturn & Hpre & _ & Hemp & _).
  assert (pre = [Toy.root ++ ["a.jpg"]] ∧ p = Toy.root ++ ["a.png"])
    as [-> ->].
  { assert (source_files (files (Toy.start Toy.dir_collide_big)) Toy.root
            = [Toy.root ++ ["a.jpg"]; Toy.root ++ ["a.png"]]) as Hsf
      by (by vm_compute).
    rewrite Hsf in Hl. destruct pre as [|g0 [|g1 pre]]; simpl in Hl.
    - injection Hl as <- _. simpl in Hfor. injection Hfor as <-.
      vm_compute in Hturn. injection Hturn as _ Hbad. discriminate Hbad.
    - injection Hl as <- <- _. split; reflexivity.
    - injection Hl as _ _ Hl. destruct pre; discriminate Hl. }
  exists w'. split; [reflexivity|].
  assert (dest (Toy.root ++ ["a.png"]) = Toy.root ++ ["a.webp"]) as Hd
    by reflexivity.
  rewrite Hd in Hemp. apply Hemp; [reflexivity|].
  destruct (Hpre (Toy.root ++ ["a.jpg"])) as (_ & g' & data & out & _ & _ & _ & _ & Hout & _).
  { apply list_elem_of_here. }
  assert (dest (Toy.root ++ ["a.jpg"]) = Toy.root ++ ["a.webp"]) as Hd'
    by reflexivity.
  rewrite Hd' in Hout. rewrite Hout. eauto.
Defined.

(** C6, as the claim states it, fails for an empty string: the program
    treats it as no path at all and returns the default directory, while
    the expanded and resolved empty path is the current directory. *)
Lemma resolve_root_empty_string_differs :
  resolve_root Toy.env (Some EmptyString) = Ok ["/"; "app"; "images"]
  ∧ expanduser Toy.env (PurePath.of_string EmptyString) = Ok []
  ∧ os_resolve Toy.env [] = Ok ["/"; "tmp"]
  ∧ resolve_root Toy.env (Some EmptyString)
    ≠ match expanduser Toy.env (PurePath.of_string EmptyString) with
      | Ok p => os_resolve Toy.env p
      | Raise e => Raise e
      end.
Proof.
  split; [|split; [|split]]; try reflexivity.
  intros H. vm_compute in H. discriminate H.
Qed.

(** C6, amended. For a supplied non-empty path [resolve_root] expands the
    path and resolves the result.  The expansion touches only a first
    component that begins with [~], which it replaces by the home
    directory that the system finds for it, and it raises [RuntimeError]
    when the system finds none; a path that begins otherwise is resolved
    as it is.  With no path, or with an empty one, [resolve_root] resolves
    the [images] directory beside the resolved program file.  What the
    resolution raises, [resolve_root] raises.  It looks at no directory,
    and the converter run on a root that does not exist (or is not a
    directory) returns the empty sequence, raises nothing and leaves the
    world as it was. *)
Theorem resolve_root_spec env :
  (∀ s, s ≠ EmptyString →
     resolve_root env (Some s)
     = match expanduser env (PurePath.of_string s) with
       | Ok p => os_resolve env p
       | Raise e => Raise e
       end)
  ∧ (∀ p, (∀ part rest, p = part :: rest → Str.tilde part = false) →
       expanduser env p = Ok p)
  ∧ (∀ part rest, Str.tilde part = true →
       expanduser env (part :: rest)
       = if Str.tilde (posix_expanduser env part)
         then Raise (RuntimeError "Could not determine home directory.")
         else Ok (PurePath.of_string (posix_expanduser env part) ++ rest))
  ∧ resolve_root env None = default_root env
  ∧ resolve_root env (Some EmptyString) = default_root env
  ∧ default_root env
    = match os_resolve env (PurePath.of_string (program_file env)) with
      | Ok file => os_resolve env (parent file ++ ["images"])
      | Raise e => Raise e
      end
  ∧ (∀ root_arg root q del w,
       resolve_root env root_arg = Ok root →
       files w !! root ≠ Some Dir →
       convert_images_to_webp env root q del w = (w, Ok [])).
Proof.
  split; [|split; [|split; [|split; [done|split; [done|split; [done|]]]]]].
  - intros [|a s] Hs; [done|]. done.
  - intros [|part rest] Hp; [done|]. unfold expanduser.
    by rewrite (Hp part rest eq_refl), andb_false_r.
  - intros part rest Hpart. unfold expanduser. rewrite Hpart.
    assert (PurePath.is_anchor part = false) as ->; [|done].
    assert (part ≠ "/") as H1 by (intros ->; discriminate Hpart).
    assert (part ≠ "//") as H2 by (intros ->; discriminate Hpart).
    unfold PurePath.is_anchor. by rewrite !bool_decide_eq_false_2.
  - intros root_arg root q del w _ Hroot.
    rewrite run_unfold, source_files_no_dir by done. done.
Qed.

(** C6, at a path in the home directory and at a user without one. *)
Lemma resolve_root_spec_witness :
  resolve_root Toy.env (Some "~/pics") = Ok ["/"; "home"; "u"; "pics"]
  ∧ resolve_root Toy.env (Some "~nobody/pics")
    = Raise (RuntimeError "Could not determine home directory.").
Proof.
  destruct (resolve_root_spec Toy.env) as (H & _ & He & _).
  rewrite !H by done. split.
  - change (PurePath.of_string "~/pics") with ["~"; "pics"].
    rewrite He by reflexivity. reflexivity.
  - change (PurePath.of_string "~nobody/pics") with ["~nobody"; "pics"].
    rewrite He by reflexivity. reflexivity.
Defined.

(** C7. When the root resolves and the converter returns a sequence,
    [main] prints one line [src -> dst] per pair, in the order of the
    sequence, then the line [converted: n] with [n] the length of the
    sequence, and nothing else; for a directory without entries that is
    the single line [converted: 0].  When the converter raises, [main]
    raises the same error and prints nothing, and so it does when
    resolving the root raises. *)
Theorem main_prints_report env args w :
  (∀ root, resolve_root env (args_root args) = Ok root →
     let run := convert_images_to_webp env root (args_quality args)
                  (args_delete_original args) w in
     (∀ w1 res, run = (w1, Ok res) →
        ∃ w', main env args w = (w', Ok ())
          ∧ files w' = files w1 ∧ events w' = events w1
          ∧ stdout w'
            = stdout w ++ ((λ e, e.1 +:+ " -> " +:+ e.2) <$> res)
              ++ ["converted: " +:+ pretty (length res)])
     ∧ (∀ w1 e, run = (w1, Raise e) →
          main env args w = (w1, Raise e) ∧ stdout w1 = stdout w)
     ∧ (scandir (files w) root = [] →
        ∃ w', main env args w = (w', Ok ())
          ∧ stdout w' = stdout w ++ ["converted: 0"]))
  ∧ (∀ e, resolve_root env (args_root args) = Raise e →
       main env args w = (w, Raise e)).
Proof.
  split; cycle 1.
  { intros e He. unfold main. apply bind_Raise. unfold lift. by rewrite He. }
  intros root Hroot run.
  assert (∀ k : Path → M unit,
            (lift (resolve_root env (args_root args)) ≫= k) w = k root w)
    as Hlift.
  { intros k. apply bind_Ok. unfold lift. by rewrite Hroot. }
  assert (∀ w1 res, run = (w1, Ok res) →
     ∃ w', main env args w = (w', Ok ())
       ∧ files w' = files w1 ∧ events w' = events w1
       ∧ stdout w' = stdout w ++ (report_line <$> res)
           ++ ["converted: " +:+ pretty (length res)]) as Hok.
  { intros w1 res Hrun. unfold main. rewrite Hlift.
    rewrite (bind_Ok _ _ _ _ _ Hrun).
    destruct (print_pairs_spec res w1) as (w2 & Hpp & Hf & He & Ho).
    rewrite (bind_Ok _ _ _ _ _ Hpp). eexists. split; [reflexivity|].
    simpl. rewrite Hf, He, Ho. repeat split; try done.
    pose proof Hrun as (pre & rest & w0 & _ & _ & _ & Hs & _ & -> & _)%run_inv.
    rewrite (steps_stdout _ _ _ _ _ _ Hs). by rewrite <-app_assoc. }
  split; [done|]. split.
  - intros w1 e Hrun. unfold main. rewrite Hlift.
    rewrite (bind_Raise _ _ _ _ _ Hrun). split; [done|].
    pose proof Hrun
      as (pre & rest & w0 & _ & _ & _ & Hs & p & rest' & _ & _ & _ & Hf)%run_inv.
    rewrite (step_fail_stdout _ _ _ _ _ _ Hf). by eapply steps_stdout.
  - intros Hempty.
    destruct (Hok w []) as (w' & Hmain & _ & _ & Ho).
    { unfold run. rewrite run_unfold, source_files_empty_dir by done. done. }
    exists w'. split; [done|]. by rewrite Ho.
Qed.

(** C7, at a directory with three images and a GIF, with the defaults. *)
Lemma main_prints_report_witness :
  ∃ w', main Toy.env default_args (Toy.start Toy.dir3) = (w', Ok ())
    ∧ stdout w' = ["a.png -> a.webp"; "b.jpg -> b.webp"; "c.jpeg -> c.webp";
                   "converted: 3"].
Proof.
  destruct (convert_images_to_webp Toy.env Toy.root 82 false
              (Toy.start Toy.dir3)) as [w1 r] eqn:Hrun.
  assert (r = Ok [("a.png", "a.webp"); ("b.jpg", "b.webp");
                  ("c.jpeg", "c.webp")]) as ->
    by (by vm_compute in Hrun; simplify_eq).
  destruct (main_prints_report Toy.env default_args (Toy.start Toy.dir3))
    as [H _].
  destruct (H Toy.root eq_refl) as [H1 _].
  destruct (H1 _ _ Hrun) as (w' & Hmain & _ & _ & Ho).
  exists w'. split; [done|]. rewrite Ho. by vm_compute.
Defined.

(** C8, as the claim states it, fails when no file matches: with a quality
    that the encoder refuses for every image, the run on a directory
    without entries returns the empty sequence and raises nothing. *)
Lemma rejected_quality_empty_directory_returns :
  (∀ img meth, pil_encode Toy.env "WEBP" img 1000 meth = None)
  ∧ convert_images_to_webp Toy.env Toy.root 1000 false
      (Toy.start Toy.dir_empty)
    = (Toy.start Toy.dir_empty, Ok [])
  ∧ ¬ ∃ w' e, convert_images_to_webp Toy.env Toy.root 1000 false
                (Toy.start Toy.dir_empty)
              = (w', Raise e).
Proof.
  split; [|split].
  - intros img meth. by vm_compute.
  - by vm_compute.
  - intros (w' & e & H). by vm_compute in H.
Qed.

(** C8, amended. The program checks no range: the quality reaches the
    encoder as it was given.  For a quality that the encoder refuses, a
    run returns only when no file matches, and then the empty sequence;
    otherwise it raises in the turn of the first file in sorted order, and
    what it raises is the encoding error of that file's save when the file
    opens and converts and its destination can be opened for writing.  The
    save has then opened the destination: it is empty when it was there,
    and no other path has changed. *)
Theorem rejected_quality_fails_at_first_encode env root q del w :
  (∀ img meth, pil_encode env "WEBP" img q meth = None) →
  let l := source_files (files w) root in
  (l = [] → convert_images_to_webp env root q del w = (w, Ok []))
  ∧ (∀ p rest data img px,
       l = p :: rest →
       files w !! p = Some (File data) → os_denied env OpRead p = false →
       pil_decode env data = Some img →
       pil_recolor env (mode img) (target_mode img) (pixels img) = Some px →
       files w !! dest p ≠ Some Dir → os_denied env OpWrite (dest p) = false →
       ∃ w', convert_images_to_webp env root q del w
             = (w', Raise (EncodeError (dest p) q))
         ∧ events w' = events w ++ [EvOpen p]
         ∧ (is_Some (files w !! dest p) →
            files w' !! dest p = Some (File []))
         ∧ (files w' !! dest p = None ∨ files w' !! dest p = Some (File []))
         ∧ ∀ k, k ≠ dest p → files w' !! k = files w !! k)
  ∧ (∀ w' r, convert_images_to_webp env root q del w = (w', r) →
       (∀ res, r = Ok res → res = [] ∧ l = [])
       ∧ (∀ e, r = Raise e →
            ∃ p rest, l = p :: rest
              ∧ convert_one env q del p w = (w', Raise e)
              ∧ ∀ k, k ≠ dest p → files w' !! k = files w !! k)).
Proof.
  intros Hrej l.
  assert (∀ p w0 w1 e, ¬ step_ok env q del p w0 w1 e) as Hno.
  { intros p w0 w1 e Hs. inversion Hs; subst. by rewrite Hrej in *. }
  split; [|split].
  - intros Hl. rewrite run_unfold. fold l. by rewrite Hl.
  - intros p rest data img px Hl Hp Hr Hdec Hpx Hnd Hwr.
    assert (is_source_path p) as Hsrc.
    { pose proof (source_files_are_sources (files w) root) as H.
      fold l in H. rewrite Hl in H. by apply Forall_cons in H as [? _]. }
    assert (convert_one env q del p w
            = (World (after_refused_save env (files w) (dest p))
                 (events w ++ [EvOpen p]) (stdout w),
               Raise (EncodeError (dest p) q))) as Hturn.
    { unfold convert_one.
      erewrite bind_Ok; cycle 1.
      { unfold with_suffix. rewrite with_suffix_webp; [reflexivity|].
        by apply source_path_name. }
      erewrite bind_Ok; [|by eapply Image_open_Ok].
      erewrite bind_Ok; [|by apply convert_target].
      erewrite bind_Raise; [reflexivity|].
      by apply save_refused. }
    eexists. split.
    { rewrite run_unfold. fold l. rewrite Hl. simpl.
      by rewrite (bind_Raise _ _ _ _ _ Hturn). }
    simpl.
    destruct (after_refused_save_eq env (files w) (dest p)) as (H1 & H2 & _).
    split; [done|]. split; [done|]. split; [done|].
    intros k Hk. by apply after_refused_save_ne.
  - intros w' r Hrun.
    pose proof Hrun as (pre & rest & w1 & Hl & _ & _ & Hs & Hr)%run_inv.
    fold l in Hl.
    assert (pre = [] ∧ w1 = w) as [-> ->].
    { inversion Hs as [|? ? ? ? ? Hs1 ?]; subst; [done|]. by apply Hno in Hs1. }
    destruct r as [res|e].
    + destruct Hr as (-> & -> & ->). fold l. rewrite Hl.
      split; [|done]. by intros res [= <-].
    + destruct Hr as (p & rest' & -> & _ & Hp & Hf). split; [done|].
      intros e' [= <-]. exists p, rest'. split; [done|]. split; [done|].
      intros k Hk. by eapply step_fail_frame.
Qed.

(** C8, at a directory with a destination left by an earlier run and
    quality 1000. *)
Lemma rejected_quality_fails_at_first_encode_witness :
  ∃ w', convert_images_to_webp Toy.env Toy.root 1000 true
          (Toy.start Toy.dir_stale)
        = (w', Raise (EncodeError (Toy.root ++ ["a.webp"]) 1000))
    ∧ events w' = [EvOpen (Toy.root ++ ["a.png"])]
    ∧ files w' !! (Toy.root ++ ["a.webp"]) = Some (File []).
Proof.
  destruct (rejected_quality_fails_at_first_encode Toy.env Toy.root 1000 true
              (Toy.start Toy.dir_stale)) as (_ & H & _).
  { intros img meth. by vm_compute. }
  destruct (H (Toy.root ++ ["a.png"]) [Toy.root ++ ["b.jpg"]]
              [Byte.x04; Byte.x10] (Image "RGBA" [16%Z]) [16%Z])
    as (w' & Hrun & Hev & Hemp & _); [by vm_compute..|].
  exists w'. split; [exact Hrun|]. split; [exact Hev|].
  apply Hemp. vm_compute. eauto.
Defined.

(** C9. Discovery reads the directory and changes nothing, so a second
    scan of the same state returns the same sorted list as the first; and
    the list does not depend on the order in which the system enumerates
    the entries: any two enumerations of the same entries give the same
    sorted list. *)
Theorem discovery_is_deterministic root w :
  let l := source_files (files w) root in
  scan root w = (w, Ok l)
  ∧ (scan root ≫= λ l1, scan root ≫= λ l2, mret (l1, l2)) w = (w, Ok (l, l))
  ∧ (∀ listing1 listing2,
       listing1 ≡ₚ scandir (files w) root →
       listing2 ≡ₚ scandir (files w) root →
       source_files_in listing1 root = source_files_in listing2 root
       ∧ source_files_in listing1 root = l).
Proof.
  intros l. split; [done|]. split; [done|].
  intros l1 l2 H1 H2. split.
  - apply source_files_in_proper. by rewrite H1, H2.
  - by apply source_files_in_proper.
Qed.

(** C9, at two enumerations of a directory with three images. *)
Lemma discovery_is_deterministic_witness :
  source_files_in ["a.png"; "b.jpg"; "c.jpeg"] Toy.root
  = source_files_in ["c.jpeg"; "b.jpg"; "a.png"] Toy.root.
Proof.
  destruct (discovery_is_deterministic Toy.root (Toy.start Toy.dir_abc))
    as (_ & _ & H).
  apply H.
  - apply NoDup_Permutation; [|apply NoDup_scandir|].
    + by apply (bool_decide_unpack _).
    + intros n. vm_compute scandir. rewrite !elem_of_cons, !elem_of_nil. tauto.
  - apply NoDup_Permutation; [|apply NoDup_scandir|].
    + by apply (bool_decide_unpack _).
    + intros n. vm_compute scandir. rewrite !elem_of_cons, !elem_of_nil. tauto.
Defined.

(** C10. Destinations are not unique.  Two source files of a run whose
    names have the same stem have the same destination, the stem followed
    by [.webp].  When the run returns, with no error raised, the result
    holds a pair for each of the two, with the same second component, the
    file that sorts first before the other; the turn of the file that
    sorts first wrote its conversion to the destination; and in the end
    the destination holds the conversion of the last source file in sorted
    order that has this destination, which is not the one of the two that
    sorts first, and is the other one when no third file shares the
    destination.  For a non-empty stem [s] the names [s.jpeg], [s.jpg] and
    [s.png] all have the stem [s] and sort in this order, so all of this
    holds of any two of them. *)
Theorem same_stem_collides env root q del w w' res p1 p2 :
  let l := source_files (files w) root in
  convert_images_to_webp env root q del w = (w', Ok res) →
  p1 ∈ l → p2 ∈ l → p1 ≠ p2 → stem p1 = stem p2 → PurePath.le p1 p2 →
  dest p1 = root ++ [stem p1 +:+ ".webp"]
  ∧ dest p2 = dest p1
  ∧ (∃ i j, i < j
       ∧ res !! i = Some (name p1, stem p1 +:+ ".webp")
       ∧ res !! j = Some (name p2, stem p1 +:+ ".webp"))
  ∧ (∃ before after w0 wb data out,
       l = before ++ p1 :: after
       ∧ for_each env q del before [] w = (w0, Ok (entry_of <$> before))
       ∧ convert_one env q del p1 w0 = (wb, Ok (entry_of p1))
       ∧ files w !! p1 = Some (File data)
       ∧ webp_of env q data = Some out
       ∧ files wb !! dest p1 = Some (File out))
  ∧ (∃ g data out,
       g ∈ l ∧ dest g = dest p1 ∧ PurePath.le p2 g ∧ g ≠ p1
       ∧ files w !! g = Some (File data)
       ∧ webp_of env q data = Some out
       ∧ files w' !! dest p1 = Some (File out)
       ∧ ((∀ g', g' ∈ l → dest g' = dest p1 → g' = p1 ∨ g' = p2) → g = p2))
  ∧ (∀ s, s ≠ EmptyString →
       stem (root ++ [s +:+ ".jpeg"]) = s
       ∧ stem (root ++ [s +:+ ".jpg"]) = s
       ∧ stem (root ++ [s +:+ ".png"]) = s
       ∧ PurePath.le (root ++ [s +:+ ".jpeg"]) (root ++ [s +:+ ".jpg"])
       ∧ PurePath.le (root ++ [s +:+ ".jpg"]) (root ++ [s +:+ ".png"])).
Proof.
  intros l Hrun Hp1 Hp2 Hne Hstem Hle.
  pose proof (sorted_source_files_in (scandir (files w) root) root) as Hsorted.
  fold (source_files (files w) root) in Hsorted. fold l in Hsorted.
  pose proof (NoDup_source_files (files w) root) as Hnd. fold l in Hnd.
  pose proof (source_files_are_sources (files w) root) as Hsrc. fold l in Hsrc.
  pose proof Hrun as Hfor. rewrite run_unfold in Hfor. fold l in Hfor.
  pose proof (for_each_inv _ _ _ _ _ _ _ _ Hfor) as [Hres Hsteps].
  simpl in Hres.
  assert (∀ p, p ∈ l → dest p = root ++ [stem p +:+ ".webp"]) as Hdest.
  { intros p (n & -> & _ & Hn)%elem_of_source_files_in.
    rewrite dest_child by done. unfold stem. by rewrite name_source. }
  assert (dest p2 = dest p1) as Hd by (by rewrite !Hdest, Hstem).
  assert (∀ la x lb y, l = la ++ x :: lb → y ∈ lb → PurePath.le y x → False)
    as Hafter.
  { intros la x lb y Hl Hy Hyx. rewrite Hl in Hsorted, Hnd.
    apply StronglySorted_app in Hsorted as (_ & _ & Hs3).
    apply StronglySorted_cons in Hs3 as [Hall _].
    rewrite Forall_forall in Hall.
    assert (y = x) as -> by (apply (anti_symm PurePath.le); auto).
    apply NoDup_app in Hnd as (_ & _ & Hnd3).
    by apply NoDup_cons in Hnd3 as [? _]. }
  assert (∀ la x lb y, l = la ++ x :: lb → y ∈ la → PurePath.le y x)
    as Hbefore.
  { intros la x lb y Hl Hy. rewrite Hl in Hsorted.
    apply StronglySorted_app in Hsorted as (Hall & _ & _).
    apply Hall; [done|]. by left. }
  split; [by apply Hdest|]. split; [done|]. split; [|split; [|split]].
  - destruct (list_elem_of_split _ _ Hp2) as (la & lb & Hl).
    assert (p1 ∈ la) as H1.
    { rewrite Hl in Hp1. apply elem_of_app in Hp1 as [?|Hin]; [done|].
      apply elem_of_cons in Hin as [?|Hin]; [done|].
      by destruct (Hafter la p2 lb p1). }
    destruct (list_elem_of_split _ _ H1) as (lx & ly & Hla).
    exists (length lx), (length la). rewrite Hres, Hl, Hla.
    split; [rewrite length_app; simpl; lia|]. split.
    + rewrite list_lookup_fmap, <-app_assoc.
      by rewrite (list_lookup_middle lx (ly ++ p2 :: lb) p1).
    + rewrite list_lookup_fmap.
      rewrite (list_lookup_middle (lx ++ p1 :: ly) lb p2) by done.
      unfold entry_of. simpl. by rewrite Hstem.
  - destruct (list_elem_of_split _ _ Hp1) as (before & after & Hl).
    rewrite Hl in Hfor, Hsrc, Hnd.
    destruct (for_each_turn _ _ _ _ _ _ _ _ _ _ Hfor)
      as (w0 & wb & Hbef & Hturn & Hs0).
    pose proof (convert_one_inv _ _ _ _ _ _ _ Hturn) as [_ Hstep].
    inversion Hstep as [data img px out _ Hdata _ Hdec Hpx Henc _ _ _ Hf].
    apply Forall_app in Hsrc as [Hsrcb [Hp1s _]%Forall_cons].
    exists before, after, w0, wb, data, out. repeat split; try done.
    + rewrite <-Hdata. symmetry. eapply steps_frame; [done| |].
      * by apply source_not_in_dests.
      * intros _ Hin. apply NoDup_app in Hnd as (_ & Hdisj & _).
        eapply Hdisj; [done|]. by left.
    + by eapply webp_of_Some.
    + rewrite Hf. destruct del.
      * rewrite lookup_delete_ne, lookup_insert_eq; [done|].
        by apply source_path_ne_dest.
      * by rewrite lookup_insert_eq.
  - destruct (steps_dest_holds _ _ _ _ _ _ p1 Hsteps Hsrc Hnd Hp1)
      as (g & data & out & Hg & Hdg & (l1 & l2 & Hl & Hl2) & Hdata & Hweb
          & Hout).
    assert (PurePath.le p2 g) as Hp2g.
    { rewrite Hl in Hp2. apply elem_of_app in Hp2 as [Hin|Hin].
      - by eapply Hbefore.
      - apply elem_of_cons in Hin as [->|Hin]; [done|].
        destruct Hl2. rewrite <-Hd. by apply list_elem_of_fmap_2. }
    assert (g ≠ p1) as Hgp1.
    { intros ->. apply Hne. by apply (anti_symm PurePath.le). }
    exists g, data, out. repeat split; try done.
    intros Honly. by destruct (Honly g Hg Hdg).
  - intros s Hs.
    assert (is_source_name (s +:+ ".jpeg")) as Hn1
      by (right; right; by exists s).
    assert (is_source_name (s +:+ ".jpg")) as Hn2 by (right; left; by exists s).
    assert (is_source_name (s +:+ ".png")) as Hn3 by (left; by exists s).
    unfold stem. rewrite !name_source by done.
    rewrite (stem_of_name_ext s "jpeg"), (stem_of_name_ext s "jpg"),
      (stem_of_name_ext s "png") by done.
    repeat split; try done; apply PathOrder.le_siblings, le_app_prefix;
      by vm_compute.
Qed.

(** C10, at a directory that holds [a.jpeg] and [a.jpg]. *)
Lemma same_stem_collides_witness :
  ∃ w' data out,
    convert_images_to_webp Toy.env Toy.root 82 false
      (Toy.start Toy.dir_collide_jpeg)
    = (w', Ok [("a.jpeg", "a.webp"); ("a.jpg", "a.webp")])
    ∧ Toy.dir_collide_jpeg !! (Toy.root ++ ["a.jpg"]) = Some (File data)
    ∧ webp_of Toy.env 82 data = Some out
    ∧ files w' !! (Toy.root ++ ["a.webp"]) = Some (File out).
Proof.
  destruct (convert_images_to_webp Toy.env Toy.root 82 false
              (Toy.start Toy.dir_collide_jpeg)) as [w' r] eqn:Hrun.
  assert (r = Ok [("a.jpeg", "a.webp"); ("a.jpg", "a.webp")]) as ->.
  { vm_compute in Hrun. by injection Hrun as _ <-. }
  assert (source_files Toy.dir_collide_jpeg Toy.root
          = [Toy.root ++ ["a.jpeg"]; Toy.root ++ ["a.jpg"]]) as Hsf
    by (by vm_compute).
  destruct (same_stem_collides Toy.env Toy.root 82 false
              (Toy.start Toy.dir_collide_jpeg) w' _
              (Toy.root ++ ["a.jpeg"]) (Toy.root ++ ["a.jpg"]) Hrun)
    as (Hd & _ & _ & _ & (g & data & out & Hg & _ & _ & Hg1 & Hdata & Hweb
                          & Hout & _) & _).
  - simpl. rewrite Hsf. apply list_elem_of_here.
  - simpl. rewrite Hsf. apply list_elem_of_further, list_elem_of_here.
  - intros [=].
  - reflexivity.
  - reflexivity.
  - simpl in Hg. rewrite Hsf in Hg.
    apply elem_of_cons in Hg as [->|Hg]; [by destruct Hg1|].
    apply list_elem_of_singleton in Hg as ->.
    assert (dest (Toy.root ++ ["a.jpeg"]) = Toy.root ++ ["a.webp"]) as Hd'
      by reflexivity.
    rewrite Hd' in Hout.
    exists w', data, out. exact (conj eq_refl (conj Hdata (conj Hweb Hout))).
Defined.

(** * Further properties of the run *)


(** X1. A run that keeps the originals does not change what discovery
    finds, whether it returns or raises: its outputs end in [.webp], which
    no pattern selects, so a scan of the directory it leaves yields the
    same sorted list as the scan it started from. *)
Theorem scan_ignores_own_outputs env root q w w' r :
  convert_images_to_webp env root q false w = (w', r) →
  source_files (files w') root = source_files (files w) root.
Proof. apply source_files_after_keep. Qed.

(** X1, at a run over three images. *)
Lemma scan_ignores_own_outputs_witness :
  source_files
    (files (convert_images_to_webp Toy.env Toy.root 82 false
              (Toy.start Toy.dir3)).1) Toy.root
  = source_files Toy.dir3 Toy.root.
Proof.
  destruct (convert_images_to_webp Toy.env Toy.root 82 false
              (Toy.start Toy.dir3)) as [w' r] eqn:Hrun.
  exact (scan_ignores_own_outputs _ _ _ _ _ _ Hrun).
Defined.

(** X2. After a run with [delete_original] that returns, no source file
    is left: discovery on the directory finds nothing, and a second run
    returns the empty sequence and changes nothing. *)
Theorem rerun_after_delete_finds_nothing env root q w w' res :
  convert_images_to_webp env root q true w = (w', Ok res) →
  source_files (files w') root = []
  ∧ ∀ q' del', convert_images_to_webp env root q' del' w' = (w', Ok []).
Proof.
  intros Hrun.
  assert (source_files (files w') root = []) as Hnone.
  { apply elem_of_nil_inv. intros p Hp.
    pose proof Hp as (n & -> & Hroot & Hsome & Hn)%elem_of_source_files.
    pose proof Hrun as (pre & rest & w1 & Hl & Hpre & _ & Hs & Hr)%run_inv.
    destruct Hr as (-> & -> & _). rewrite app_nil_r in Hl. subst pre.
    destruct (decide (root ++ [n] ∈ source_files (files w) root)) as [Hin|Hout].
    - rewrite (steps_deleted _ _ _ _ _ _ _ Hs eq_refl Hpre Hin) in Hsome.
      by destruct Hsome.
    - apply Hout. apply elem_of_source_files. exists n.
      rewrite <-(run_keeps_root _ _ _ _ _ _ _ Hrun).
      rewrite <-(run_frame _ _ _ _ _ _ _ (root ++ [n]) Hrun); [done| |done].
      apply source_not_in_dests. by exists root, n. }
  split; [done|]. intros q' del'. rewrite run_unfold, Hnone. done.
Qed.

(** X2, at a deleting run over three images. *)
Lemma rerun_after_delete_finds_nothing_witness :
  source_files
    (files (convert_images_to_webp Toy.env Toy.root 82 true
              (Toy.start Toy.dir3)).1) Toy.root = [].
Proof.
  destruct (convert_images_to_webp Toy.env Toy.root 82 true
              (Toy.start Toy.dir3)) as [w' r] eqn:Hrun.
  assert (∃ res, r = Ok res) as [res ->].
  { vm_compute in Hrun. injection Hrun as _ <-. eauto. }
  by destruct (rerun_after_delete_finds_nothing _ _ _ _ _ _ Hrun).
Defined.

(** X3. A run that keeps the originals can be repeated: when it returns,
    a second run with the same quality on the directory it left returns
    the same sequence and leaves every file as the first run left it. *)
Theorem rerun_without_delete_is_idempotent env root q w w1 res :
  convert_images_to_webp env root q false w = (w1, Ok res) →
  ∃ w2, convert_images_to_webp env root q false w1 = (w2, Ok res)
    ∧ files w2 = files w1.
Proof.
  intros Hrun.
  pose proof (source_files_after_keep _ _ _ _ _ _ Hrun) as Hscan.
  pose proof (source_files_are_sources (files w) root) as Hsrc.
  pose proof (NoDup_source_files (files w) root) as Hnd.
  pose proof Hrun as (pre & rest & w0 & Hl & _ & _ & Hs & Hr)%run_inv.
  destruct Hr as (-> & <- & ->). rewrite app_nil_r in Hl. subst pre.
  set (l := source_files (files w) root) in *.
  assert (∀ p, p ∈ l → files w1 !! p = files w !! p) as Hkeep.
  { intros p Hp. eapply steps_frame; [done| |done].
    apply source_not_in_dests. rewrite Forall_forall in Hsrc. by apply Hsrc. }
  destruct (for_each_ready env q false l [] w1 Hsrc Hnd) as [w2 Hrun2].
  { intros p Hp.
    destruct (steps_turn _ _ _ _ _ _ p Hs Hsrc Hnd Hp)
      as (data & img & px & out & Hdata & Hread & Hdec & Hpx & Henc & Hwr & Hu).
    destruct (steps_written _ _ _ _ _ _ p Hs Hsrc Hp) as [out' Hout].
    exists data, img, px, out. rewrite Hkeep, Hout by done. done. }
  exists w2. split; [by rewrite run_unfold, Hscan|].
  pose proof Hrun2 as [_ Hs2]%for_each_inv.
  apply map_eq. intros k.
  destruct (decide (k ∈ dest <$> l)) as [Hin|Hout].
  - destruct (fmap_split_last dest l k Hin) as (l1 & p & l2 & Hsplit & <- & Hl2).
    rewrite Hsplit in Hs, Hs2, Hsrc, Hnd.
    destruct (steps_last_writer _ _ _ _ _ _ _ _ Hs Hsrc Hnd Hl2)
      as (data & out & Hdata & Hweb & ->).
    destruct (steps_last_writer _ _ _ _ _ _ _ _ Hs2 Hsrc Hnd Hl2)
      as (data2 & out2 & Hdata2 & Hweb2 & ->).
    rewrite Hkeep in Hdata2 by (rewrite Hsplit, elem_of_app, elem_of_cons; auto).
    congruence.
  - by eapply steps_frame.
Qed.

(** X3, at a run over three images. *)
Lemma rerun_without_delete_is_idempotent_witness :
  ∃ w1 w2 res,
    convert_images_to_webp Toy.env Toy.root 82 false (Toy.start Toy.dir3)
    = (w1, Ok res)
    ∧ convert_images_to_webp Toy.env Toy.root 82 false w1 = (w2, Ok res)
    ∧ files w2 = files w1.
Proof.
  destruct (convert_images_to_webp Toy.env Toy.root 82 false
              (Toy.start Toy.dir3)) as [w1 r] eqn:Hrun.
  assert (∃ res, r = Ok res) as [res ->].
  { vm_compute in Hrun. injection Hrun as _ <-. eauto. }
  destruct (rerun_without_delete_is_idempotent _ _ _ _ _ _ Hrun)
    as (w2 & Hrun2 & Hf).
  exists w1, w2, res. exact (conj eq_refl (conj Hrun2 Hf)).
Defined.

(** X4. Why the loop raises.  When the loop over the discovered files
    raises, the error is the error of the turn of one of them, [p], and
    its cause can be told of the directory the run began with: [p] is a
    directory or unreadable, its bytes do not decode or convert, its
    destination is a directory or cannot be opened for writing, the
    encoder refuses the converted image (then the destination, opened
    before, is empty or absent), or, with [delete_original], [p] cannot be
    deleted (then the destination holds the conversion of [p]).  [p]
    itself is as it was, and the error is never the [ValueError] of
    [with_suffix]: what discovery lists has a name. *)
Theorem run_error_causes env root q del w w' e :
  for_each env q del (source_files (files w) root) [] w = (w', Raise e) →
  ∃ p m,
    p ∈ source_files (files w) root
    ∧ turn_raises env q del p (files w) e m
    ∧ files w' !! p = files w !! p
    ∧ (∀ out, m = Written out → files w' !! dest p = Some (File out))
    ∧ (m = Refused →
       files w' !! dest p = None ∨ files w' !! dest p = Some (File []))
    ∧ (∀ x, e ≠ ValueError x).
Proof.
  intros Hrun. rewrite <-run_unfold in Hrun.
  pose proof (source_files_are_sources (files w) root) as Hsrc.
  pose proof Hrun as (pre & rest0 & w1 & Hl & Hpre & Hnd & Hs & Hr)%run_inv.
  destruct Hr as (p & rest & -> & _ & Hturn & Hf).
  assert (p ∈ source_files (files w) root) as Hp.
  { rewrite Hl, elem_of_app, elem_of_cons. auto. }
  assert (is_source_path p) as Hps.
  { rewrite Forall_forall in Hsrc. by apply Hsrc. }
  assert (files w1 !! p = files w !! p) as Hsame.
  { eapply steps_frame; [done|by apply source_not_in_dests|].
    intros _ Hin. apply NoDup_app in Hnd as (_ & Hdisj & _).
    eapply Hdisj; [done|]. by left. }
  destruct (convert_one_raise_inv _ _ _ _ _ _ _ (source_path_name p Hps)
              (source_path_ne_dest p Hps) Hturn) as (m & Hwhy & Hleft).
  assert (turn_raises env q del p (files w) e m) as Hwhy0.
  { eapply turn_raises_transfer; [done| |done].
    eapply steps_dir_iff; [done..|]. by apply NoDup_app in Hnd as [? _]. }
  exists p, m. split; [done|]. split; [done|].
  split; [|split; [|split]].
  - rewrite <-Hsame. eapply step_fail_frame; [done|].
    by apply source_path_ne_dest.
  - intros out ->. simpl in Hleft. by rewrite Hleft, lookup_insert_eq.
  - intros ->. simpl in Hleft. rewrite Hleft.
    by destruct (after_refused_save_eq env (files w1) (dest p)) as (_ & ? & _).
  - intros x ->. inversion Hwhy0.
Qed.

(** X4, at a directory whose second file is not an image. *)
Lemma run_error_causes_witness :
  ∃ p m,
    p ∈ source_files Toy.dir_bad Toy.root
    ∧ turn_raises Toy.env 82 true p Toy.dir_bad
        (UnidentifiedImageError (Toy.root ++ ["b.jpg"])) m.
Proof.
  destruct (for_each Toy.env 82 true (source_files Toy.dir_bad Toy.root) []
              (Toy.start Toy.dir_bad)) as [w' r] eqn:Hrun.
  assert (r = Raise (UnidentifiedImageError (Toy.root ++ ["b.jpg"]))) as ->.
  { vm_compute in Hrun. by injection Hrun as _ <-. }
  destruct (run_error_causes Toy.env Toy.root 82 true (Toy.start Toy.dir_bad)
              _ _ Hrun)
    as (p & m & Hp & Hwhy & _).
  exists p, m. exact (conj Hp Hwhy).
Defined.

(** X5. A run stays inside its directory and leaves the kinds of entries
    alone: whichever way it ends, a path that is not an entry directly
    inside [root] is as it was, so nothing is touched in subdirectories or
    elsewhere; and an entry is a directory after the run exactly when it
    was one before, so the run creates no directory, removes none and
    replaces none by a file. *)
Theorem run_stays_in_root_and_keeps_directories env root q del w w' r :
  convert_images_to_webp env root q del w = (w', r) →
  (∀ k, (∀ n, k ≠ root ++ [n]) → files w' !! k = files w !! k)
  ∧ (∀ k, files w' !! k = Some Dir ↔ files w !! k = Some Dir).
Proof.
  intros Hrun. split.
  - intros k Hk. eapply run_frame; [done| |].
    + intros (p & -> & Hp)%list_elem_of_fmap.
      apply elem_of_source_files_in in Hp as (n & -> & _ & Hn).
      rewrite dest_child in Hk by done. by eapply Hk.
    + intros _ (n & -> & _)%elem_of_source_files_in. by eapply Hk.
  - intros k.
    pose proof (source_files_are_sources (files w) root) as Hsrc.
    pose proof Hrun as (pre & rest0 & w1 & Hl & Hpre & Hnd & Hs & Hr)%run_inv.
    rewrite <-(steps_dir_iff _ _ _ _ _ _ k Hs Hpre);
      [|by apply NoDup_app in Hnd as [? _]].
    destruct r as [res|e].
    + by destruct Hr as (_ & -> & _).
    + destruct Hr as (p & rest & -> & _ & Hturn & _).
      eapply raise_dir_iff; [|done].
      rewrite Forall_forall in Hsrc. apply Hsrc.
      rewrite Hl, elem_of_app, elem_of_cons. auto.
Qed.

(** X5, at a run over three images: the directory itself stays one. *)
Lemma run_stays_in_root_and_keeps_directories_witness :
  files (convert_images_to_webp Toy.env Toy.root 82 true
           (Toy.start Toy.dir3)).1 !! Toy.root = Some Dir.
Proof.
  destruct (convert_images_to_webp Toy.env Toy.root 82 true
              (Toy.start Toy.dir3)) as [w' r] eqn:Hrun.
  destruct (run_stays_in_root_and_keeps_directories _ _ _ _ _ _ _ Hrun)
    as [_ Hdir].
  by apply Hdir.
Defined.

(** X6. The entries after a run that returns are known exactly: the
    entries there were before, without the discovered files when
    [delete_original] is set, together with the destinations of the
    discovered files.  Nothing else appears and nothing else disappears. *)
Theorem directory_after_run env root q del w w' res :
  convert_images_to_webp env root q del w = (w', Ok res) →
  dom (files w')
  =@{gset Path}
    (if del then dom (files w) ∖ list_to_set (source_files (files w) root)
     else dom (files w))
    ∪ list_to_set (dest <$> source_files (files w) root).
Proof. apply dom_after_run. Qed.

(** X6, at a run over three images and a GIF. *)
Lemma directory_after_run_witness :
  Toy.root ++ ["d.gif"]
  ∈@{gset Path}
    dom (files (convert_images_to_webp Toy.env Toy.root 82 true
                  (Toy.start Toy.dir3)).1).
Proof.
  destruct (convert_images_to_webp Toy.env Toy.root 82 true
              (Toy.start Toy.dir3)) as [w' r] eqn:Hrun.
  assert (∃ res, r = Ok res) as [res ->].
  { vm_compute in Hrun. injection Hrun as _ <-. eauto. }
  simpl. rewrite (directory_after_run _ _ _ _ _ _ _ Hrun).
  apply elem_of_union. left. apply elem_of_difference. split.
  - apply elem_of_dom. vm_compute. eauto.
  - rewrite elem_of_list_to_set. vm_compute source_files.
    rewrite !elem_of_cons, elem_of_nil. intros [?|[?|[?|[]]]]; discriminate.
Defined.

(** X7. Counting files.  When the destinations of the discovered files
    are pairwise distinct and none of them exists before the run, a run
    that returns without deleting grows the number of entries by the
    length of its result, and a run that returns with deleting leaves the
    number of entries as it was. *)
Theorem file_count_after_run env root q del w w' res :
  convert_images_to_webp env root q del w = (w', Ok res) →
  NoDup (dest <$> source_files (files w) root) →
  (∀ p, p ∈ source_files (files w) root → files w !! dest p = None) →
  size (files w')
  = if del then size (files w) else size (files w) + length res.
Proof.
  intros Hrun Hnd Hfresh.
  pose proof (dom_after_run _ _ _ _ _ _ _ Hrun) as Hdom.
  set (l := source_files (files w) root) in *.
  assert (length res = length l) as Hlen.
  { rewrite run_unfold in Hrun. apply for_each_inv in Hrun as [-> _].
    simpl. by rewrite length_fmap. }
  assert (size (list_to_set (dest <$> l) : gset Path) = length l) as Hsize.
  { rewrite size_list_to_set by done. by rewrite length_fmap. }
  assert (∀ k, k ∈ dom (files w) → k ∉ (list_to_set (dest <$> l) : gset Path))
    as Hdisj.
  { intros k [x Hx]%elem_of_dom (p & -> & Hp)%elem_of_list_to_set%list_elem_of_fmap.
    by rewrite (Hfresh p Hp) in Hx. }
  rewrite <-!(size_dom (D:=gset Path)), Hdom. destruct del.
  - rewrite size_union.
    + rewrite size_difference.
      * rewrite Hsize, size_list_to_set by apply NoDup_source_files.
        assert (size (list_to_set l : gset Path) ≤ size (dom (files w)))%nat; [|
          rewrite size_list_to_set in * by apply NoDup_source_files; fold l; lia].
        apply subseteq_size. intros k Hk%elem_of_list_to_set.
        apply elem_of_source_files in Hk as (n & -> & _ & ? & _).
        by apply elem_of_dom.
      * intros k Hk%elem_of_list_to_set.
        apply elem_of_source_files in Hk as (n & -> & _ & ? & _).
        by apply elem_of_dom.
    + intros k [Hk _]%elem_of_difference. by apply Hdisj.
  - rewrite size_union by (intros k; apply Hdisj). lia.
Qed.

(** X7, at a run over three images and a GIF that keeps the originals. *)
Lemma file_count_after_run_witness :
  size (files (convert_images_to_webp Toy.env Toy.root 82 false
                 (Toy.start Toy.dir3)).1) = 8.
Proof.
  destruct (convert_images_to_webp Toy.env Toy.root 82 false
              (Toy.start Toy.dir3)) as [w' r] eqn:Hrun.
  assert (∃ res, length res = 3 ∧ r = Ok res) as (res & Hlen & ->).
  { vm_compute in Hrun. injection Hrun as _ <-.
    eexists. split; cycle 1; reflexivity. }
  simpl. rewrite (file_count_after_run _ _ _ _ _ _ _ Hrun), Hlen;
    [by vm_compute|..].
  - vm_compute source_files. by apply (bool_decide_unpack _).
  - intros p. vm_compute source_files. rewrite !elem_of_cons, elem_of_nil.
    intros [->|[->|[->|[]]]]; reflexivity.
Defined.

(** X8. The result is ordered by source name and names no file twice:
    the first components of a returned sequence are sorted by code points
    and pairwise distinct; each is the name of an entry that was in the
    directory, ends in one of the three extensions, and is paired with its
    own stem followed by [.webp]. *)
Theorem result_sorted_by_name env root q del w w' res :
  convert_images_to_webp env root q del w = (w', Ok res) →
  StronglySorted String.le (res.*1)
  ∧ NoDup (res.*1)
  ∧ ∀ src dst, (src, dst) ∈ res →
      is_source_name src ∧ is_Some (files w !! (root ++ [src]))
      ∧ dst = stem_of_name src +:+ ".webp".
Proof.
  intros Hrun. rewrite run_unfold in Hrun.
  apply for_each_inv in Hrun as [-> _]. simpl.
  assert (∀ p, p ∈ source_files (files w) root →
               ∃ n, p = root ++ [n] ∧ is_source_name n) as Hl.
  { intros p (n & -> & _ & _ & Hn)%elem_of_source_files. eauto. }
  assert ((entry_of <$> source_files (files w) root).*1
          = name <$> source_files (files w) root) as ->.
  { by rewrite <-list_fmap_compose. }
  split; [|split].
  - eapply names_sorted; [done|]. apply sorted_source_files_in.
  - eapply names_NoDup; [done|]. apply NoDup_source_files.
  - intros src dst (p & Heq & Hp)%list_elem_of_fmap.
    apply elem_of_source_files in Hp as (n & -> & _ & Hex & Hn).
    unfold entry_of, stem in Heq. rewrite name_source in Heq by done.
    by simplify_eq.
Qed.

(** X8, at a run over three images and a GIF. *)
Lemma result_sorted_by_name_witness :
  ∃ res, (convert_images_to_webp Toy.env Toy.root 82 false
            (Toy.start Toy.dir3)).2 = Ok res
    ∧ StronglySorted String.le (res.*1) ∧ NoDup (res.*1).
Proof.
  destruct (convert_images_to_webp Toy.env Toy.root 82 false
              (Toy.start Toy.dir3)) as [w' r] eqn:Hrun.
  assert (∃ res, r = Ok res) as [res ->].
  { vm_compute in Hrun. injection Hrun as _ <-. eauto. }
  destruct (result_sorted_by_name _ _ _ _ _ _ _ Hrun) as (Hs & Hn & _).
  exists res. exact (conj eq_refl (conj Hs Hn)).
Defined.

(** X9. What a destination holds after a run that returns: the conversion
    of the original bytes of the last discovered file, in sorted order,
    that has this destination, whatever the destination held before.  In
    particular, when no other discovered file shares the destination of
    [p], an existing file at that destination is replaced by the
    conversion of [p]. *)
Theorem destination_holds_last_source env root q del w w' res p :
  convert_images_to_webp env root q del w = (w', Ok res) →
  p ∈ source_files (files w) root →
  ∃ g data out,
    g ∈ source_files (files w) root ∧ dest g = dest p
    ∧ (∀ g', g' ∈ source_files (files w) root → dest g' = dest p →
         PurePath.le g' g)
    ∧ files w !! g = Some (File data)
    ∧ webp_of env q data = Some out
    ∧ files w' !! dest p = Some (File out)
    ∧ ((∀ g', g' ∈ source_files (files w) root → dest g' = dest p → g' = p) →
       g = p).
Proof.
  intros Hrun Hp.
  pose proof (source_files_are_sources (files w) root) as Hsrc.
  pose proof (NoDup_source_files (files w) root) as Hnd.
  pose proof (sorted_source_files_in (scandir (files w) root) root) as Hsorted.
  fold (source_files (files w) root) in Hsorted.
  pose proof Hrun as Hinv. rewrite run_unfold in Hinv.
  apply for_each_inv in Hinv as [_ Hs].
  destruct (fmap_split_last dest (source_files (files w) root) (dest p))
    as (l1 & g & l2 & Hl & Hg & Hl2); [by apply list_elem_of_fmap_2|].
  rewrite Hl in Hs, Hsrc, Hnd, Hsorted.
  rewrite <-Hg in Hl2.
  destruct (steps_last_writer _ _ _ _ _ _ _ _ Hs Hsrc Hnd Hl2)
    as (data & out & Hdata & Hweb & Hout).
  assert (g ∈ source_files (files w) root) as Hgl.
  { rewrite Hl, elem_of_app, elem_of_cons. auto. }
  exists g, data, out. rewrite <-Hg. repeat split; try done.
  - intros g' Hg' Hd. rewrite Hl in Hg'.
    apply elem_of_app in Hg' as [Hin|Hin].
    + apply StronglySorted_app in Hsorted as (Hle & _ & _).
      apply Hle; [done|by left].
    + apply elem_of_cons in Hin as [->|Hin]; [done|].
      destruct Hl2. rewrite <-Hd. by apply list_elem_of_fmap_2.
  - intros Honly. by apply Honly.
Qed.

(** X9, at a directory that holds [a.jpg] and [a.png]. *)
Lemma destination_holds_last_source_witness :
  ∃ w' g data out,
    (convert_images_to_webp Toy.env Toy.root 82 false
       (Toy.start Toy.dir_collide)).1 = w'
    ∧ dest g = dest (Toy.root ++ ["a.jpg"])
    ∧ Toy.dir_collide !! g = Some (File data)
    ∧ webp_of Toy.env 82 data = Some out
    ∧ files w' !! dest (Toy.root ++ ["a.jpg"]) = Some (File out).
Proof.
  destruct (convert_images_to_webp Toy.env Toy.root 82 false
              (Toy.start Toy.dir_collide)) as [w' r] eqn:Hrun.
  assert (∃ res, r = Ok res) as [res ->].
  { vm_compute in Hrun. injection Hrun as _ <-. eauto. }
  destruct (destination_holds_last_source _ _ _ _ _ _ _
              (Toy.root ++ ["a.jpg"]) Hrun)
    as (g & data & out & _ & Hg & _ & Hdata & Hweb & Hout & _).
  { vm_compute source_files. apply elem_of_cons. by left. }
  exists w', g, data, out.
  exact (conj eq_refl (conj Hg (conj Hdata (conj Hweb Hout)))).
Defined.

(** X10. The destination is a sibling of the source.  For a path with a
    name, [with_suffix(".webp")] succeeds and gives a path in the same
    directory, with the same stem and the suffix [.webp], and applying it
    again changes nothing; for a path without a name (the anchor or the
    empty path) it raises. *)
Theorem destination_is_sibling p :
  (name p = EmptyString → PurePath.with_suffix_pure p ".webp" = None)
  ∧ (name p ≠ EmptyString →
     PurePath.with_suffix_pure p ".webp" = Some (dest p)
     ∧ parent (dest p) = parent p
     ∧ stem (dest p) = stem p
     ∧ suffix (dest p) = ".webp"
     ∧ PurePath.with_suffix_pure (dest p) ".webp" = Some (dest p)).
Proof.
  split.
  { intros Hn. unfold PurePath.with_suffix_pure. by rewrite decide_True. }
  intros Hn.
  assert (stem p ≠ EmptyString) as Hst by by apply stem_of_name_nonempty.
  assert (name (dest p) ≠ EmptyString) as Hnd.
  { rewrite name_dest. by destruct (stem p). }
  assert (stem (dest p) = stem p) as Hstem.
  { unfold stem at 1. rewrite name_dest.
    by apply (stem_of_name_ext (stem p) "webp"). }
  split; [by apply with_suffix_webp|]. split; [|split; [done|split]].
  - unfold parent. rewrite !decide_False by done.
    unfold dest. by rewrite removelast_last.
  - unfold suffix. rewrite name_dest. by apply suffix_of_name_webp.
  - rewrite with_suffix_webp by done. f_equal.
    unfold dest at 1. rewrite Hstem. unfold dest at 1.
    by rewrite removelast_last.
Qed.

(** X10, at a file with two dots in its name. *)
Lemma destination_is_sibling_witness :
  PurePath.with_suffix_pure ["/"; "srv"; "a.tar.png"] ".webp"
  = Some ["/"; "srv"; "a.tar.webp"]
  ∧ parent (dest ["/"; "srv"; "a.tar.png"]) = ["/"; "srv"].
Proof.
  destruct (destination_is_sibling ["/"; "srv"; "a.tar.png"]) as [_ H].
  destruct H as (H1 & H2 & _); [done|].
  rewrite H1, H2. split; reflexivity.
Defined.

(** X11. The operations of a run that returns, in full: the trace opens
    the discovered files in sorted order, each once; saves to their
    destinations in the same order, each once; deletes the discovered
    files in that order when [delete_original] is set and deletes nothing
    otherwise; and holds no other operation. *)
Theorem run_trace_exact env root q del w w' res :
  convert_images_to_webp env root q del w = (w', Ok res) →
  ∃ t, events w' = events w ++ t
    ∧ opened t = source_files (files w) root
    ∧ saved t = dest <$> source_files (files w) root
    ∧ unlinked t = (if del then source_files (files w) root else [])
    ∧ length t = (if del then 3 else 2) * length res.
Proof.
  intros Hrun. rewrite run_unfold in Hrun.
  apply for_each_inv in Hrun as [-> Hs]. cbn [app]. rewrite length_fmap.
  exact (steps_trace_exact _ _ _ _ _ _ Hs).
Qed.

(** X11, at a deleting run over three images and a GIF. *)
Lemma run_trace_exact_witness :
  ∃ t, events (convert_images_to_webp Toy.env Toy.root 82 true
                 (Toy.start Toy.dir3)).1 = t
    ∧ unlinked t = source_files Toy.dir3 Toy.root.
Proof.
  destruct (convert_images_to_webp Toy.env Toy.root 82 true
              (Toy.start Toy.dir3)) as [w' r] eqn:Hrun.
  assert (∃ res, r = Ok res) as [res ->].
  { vm_compute in Hrun. injection Hrun as _ <-. eauto. }
  destruct (run_trace_exact _ _ _ _ _ _ _ Hrun) as (t & Ht & _ & _ & Hu & _).
  exists t. exact (conj Ht Hu).
Defined.
